(** * GitHub bounty overlay: escrow contract, lifecycle index and workflows

    A shallow embedding of
    - [backend/src/contracts/BountyContract.ts] (the sCrypt escrow contract),
    - the topic manager's output classifier,
    - [BountyLookupService] (the MongoDB-backed lifecycle index and its
      query resolver),
    - [BountyService] (create / pay / refund / cancel workflows) and
      [GitHubIdentityService],
    together with the properties the specification states about them. *)

From Stdlib Require Import ZArith Sorted.
From stdpp Require Import gmap strings pretty list fin_maps.

Local Open Scope string_scope.
Local Open Scope list_scope.
Local Open Scope Z_scope.

(** ** Byte strings

    In scrypt-ts a [ByteString] (and its refinements [Sig], [PubKey],
    [Addr]) is a hex-encoded JavaScript string. *)

Abbreviation ByteString := string.
Abbreviation Sig := string.
Abbreviation PubKey := string.
Abbreviation Addr := string.

(** * The escrow contract *)

Module Contract.

(** [SigHash] flags a [@method] decorator can select. *)
Inductive SigHashType :=
  | ALL | NONE | SINGLE
  | ANYONECANPAY_ALL | ANYONECANPAY_NONE | ANYONECANPAY_SINGLE.

(** The part of [this.ctx] the contract reads, plus the two fields the
    time-lock verifier looks at. *)
Record ScriptContext := {
  utxo_value : Z;            (* this.ctx.utxo.value *)
  hashOutputs : ByteString;  (* this.ctx.hashOutputs *)
  locktime : Z;              (* this.ctx.locktime *)
  sequence : Z               (* this.ctx.sequence *)
}.

(** The scrypt-ts library functions the contract calls, and the chain time
    at which a spending context is evaluated.  They are not part of the
    repository; the contract is verified for every implementation. *)
Class ScryptLib := {
  checkSig : ScriptContext → Sig → PubKey → bool;
  timeLock : ScriptContext → Z → bool;
  chainTime : ScriptContext → Z;
  hash256 : ByteString → ByteString;
  pubKey2Addr : PubKey → Addr;
  buildPublicKeyHashOutput : Addr → Z → ByteString
}.

(** The time-lock verifier compares a deadline with the chain time the
    spending transaction is evaluated at: it only answers [true] when
    that time has reached the deadline. *)
Definition TimeLockSound `{ScryptLib} : Prop :=
  ∀ ctx d, timeLock ctx d = true → d ≤ chainTime ctx.

(** Idealised collision resistance of the double SHA-256. *)
Definition CollisionFree `{ScryptLib} : Prop :=
  ∀ x y, hash256 x = hash256 y → x = y.

(** The five [@prop() readonly] fields. *)
Record BountyContract := {
  funderAddr : Addr;
  issueId : Z;
  repoOwner : PubKey;
  certifierPubKey : PubKey;
  deadline : Z
}.

(** A public method either runs to its end or fails one of its [assert]s,
    which makes the spending transaction invalid. *)
Inductive Verdict :=
  | Accept
  | Reject (msg : string).

Definition assert (cond : bool) (msg : string) (rest : Verdict) : Verdict :=
  if cond then rest else Reject msg.

Notation "'assert!' ( c , m ) ; k" := (assert c m k)
  (at level 10, c at level 99, m at level 0, k at level 200,
   format "'[v' 'assert!'  ( c ,  m ) ; '/' k ']'").

Section Methods.
Context `{ScryptLib}.

Definition paySolver (this : BountyContract) (ctx : ScriptContext)
    (solverSig : Sig) (solverPubKey : PubKey)
    (ownerSig : Sig) (certifierSig : Sig) : Verdict :=
  assert! (checkSig ctx solverSig solverPubKey,
           "solver signature check failed");
  assert! (checkSig ctx ownerSig (repoOwner this),
           "repo owner signature check failed");
  assert! (checkSig ctx certifierSig (certifierPubKey this),
           "certifier signature check failed");
  let amount := utxo_value ctx in
  let solverAddr := pubKey2Addr solverPubKey in
  let out := buildPublicKeyHashOutput solverAddr amount in
  assert! (bool_decide (hash256 out = hashOutputs ctx),
           "hashOutputs mismatch");
  Accept.

Definition refundExpired (this : BountyContract) (ctx : ScriptContext)
    (funderSig : Sig) (funderPubKey : PubKey) : Verdict :=
  assert! (bool_decide (pubKey2Addr funderPubKey = funderAddr this),
           "invalid public key for funder");
  assert! (checkSig ctx funderSig funderPubKey,
           "funder signature check failed");
  assert! (timeLock ctx (deadline this), "deadline not yet reached");
  let amount := utxo_value ctx in
  let out := buildPublicKeyHashOutput (funderAddr this) amount in
  assert! (bool_decide (hash256 out = hashOutputs ctx),
           "hashOutputs mismatch");
  Accept.

Definition cancelBounty (this : BountyContract) (ctx : ScriptContext)
    (funderSig : Sig) (funderPubKey : PubKey) (ownerSig : Sig) : Verdict :=
  assert! (bool_decide (pubKey2Addr funderPubKey = funderAddr this),
           "invalid public key for funder");
  assert! (checkSig ctx funderSig funderPubKey,
           "funder signature check failed");
  assert! (checkSig ctx ownerSig (repoOwner this),
           "repo owner signature check failed");
  let amount := utxo_value ctx in
  let out := buildPublicKeyHashOutput (funderAddr this) amount in
  assert! (bool_decide (hash256 out = hashOutputs ctx),
           "hashOutputs mismatch");
  Accept.

(** *** Spending transactions

    A call of a public method, as it appears in the unlocking script. *)
Inductive MethodCall :=
  | CallPaySolver (solverSig : Sig) (solverPubKey : PubKey)
                  (ownerSig : Sig) (certifierSig : Sig)
  | CallRefundExpired (funderSig : Sig) (funderPubKey : PubKey)
  | CallCancelBounty (funderSig : Sig) (funderPubKey : PubKey)
                     (ownerSig : Sig).

(** The [@method(...)] decorators: [paySolver] is declared with
    [SigHash.ANYONECANPAY_SINGLE], the other two with the default. *)
Definition sigHashType (call : MethodCall) : SigHashType :=
  match call with
  | CallPaySolver _ _ _ _ => ANYONECANPAY_SINGLE
  | CallRefundExpired _ _ => ALL
  | CallCancelBounty _ _ _ => ALL
  end.

(** A transaction spending the contract output: its serialized outputs,
    its lock time, and the position, sequence number and value of the
    input that spends the contract. *)
Record SpendingTx := {
  tx_outputs : list ByteString;
  tx_locktime : Z;
  tx_input_index : nat;
  tx_input_sequence : Z;
  tx_input_value : Z
}.

Definition zeros32 : ByteString :=
  "0000000000000000000000000000000000000000000000000000000000000000".

Definition serializeOutputs (outs : list ByteString) : ByteString :=
  foldr String.append "" outs.

(** The outputs hash of the signature-hash preimage, which is what
    [this.ctx.hashOutputs] holds: under [ALL] it commits to every
    output, under [SINGLE] only to the output at the input's own index,
    under [NONE] to nothing. *)
Definition hashOutputsOf (sh : SigHashType) (tx : SpendingTx) : ByteString :=
  match sh with
  | ALL | ANYONECANPAY_ALL => hash256 (serializeOutputs (tx_outputs tx))
  | SINGLE | ANYONECANPAY_SINGLE =>
      match tx_outputs tx !! tx_input_index tx with
      | Some o => hash256 o
      | None => zeros32
      end
  | NONE | ANYONECANPAY_NONE => zeros32
  end.

Definition contextOf (sh : SigHashType) (tx : SpendingTx) : ScriptContext :=
  {| utxo_value := tx_input_value tx;
     hashOutputs := hashOutputsOf sh tx;
     locktime := tx_locktime tx;
     sequence := tx_input_sequence tx |}.

(** Evaluation of the locking predicate against a proposed spend. *)
Definition unlock (this : BountyContract) (tx : SpendingTx)
    (call : MethodCall) : Verdict :=
  let ctx := contextOf (sigHashType call) tx in
  match call with
  | CallPaySolver solverSig solverPubKey ownerSig certifierSig =>
      paySolver this ctx solverSig solverPubKey ownerSig certifierSig
  | CallRefundExpired funderSig funderPubKey =>
      refundExpired this ctx funderSig funderPubKey
  | CallCancelBounty funderSig funderPubKey ownerSig =>
      cancelBounty this ctx funderSig funderPubKey ownerSig
  end.

(** The one output each transition pays. *)
Definition requiredPayout (this : BountyContract) (tx : SpendingTx)
    (call : MethodCall) : ByteString :=
  match call with
  | CallPaySolver _ solverPubKey _ _ =>
      buildPublicKeyHashOutput (pubKey2Addr solverPubKey) (tx_input_value tx)
  | CallRefundExpired _ _ | CallCancelBounty _ _ _ =>
      buildPublicKeyHashOutput (funderAddr this) (tx_input_value tx)
  end.

End Methods.

End Contract.

(** * The persistence collaborator

    MongoDB as the services use it: collections of schemaless documents,
    equality filters, [$set] updates and unique indexes. *)

Module Mongo.

(** Field values the services store: strings, numbers, [Date]s (epoch
    milliseconds, or the Invalid Date, whose time value is NaN) and
    [number[]] arrays (script bytes).  Numbers are integers: the
    arithmetic of the services is exact on them as long as the values stay
    within the safe integers, which every time value of a [Date] does. *)
Inductive Value :=
  | VStr (s : string)
  | VNum (n : Z)
  | VDate (ms : Z)
  | VInvalidDate
  | VArr (bytes : list Z).

(** The largest time value of a [Date], in milliseconds either side of the
    epoch. *)
Definition maxTime : Z := 8640000000000000.

(** [new Date(ms)]: a time value out of range makes an Invalid Date. *)
Definition newDate (ms : Z) : Value :=
  if Z.abs ms <=? maxTime then VDate ms else VInvalidDate.

#[global] Instance Value_eq_dec : EqDecision Value.
Proof. solve_decision. Defined.

(** A document is a JavaScript object: a finite map from field names. *)
Abbreviation Doc := (gmap string Value).

(** An equality filter such as [{ txid, outputIndex, topic }]. *)
Abbreviation Filter := (list (string * Value)).

Record Collection := {
  docs : list Doc;                    (* in insertion order *)
  uniqueIndexes : list (list string)  (* field lists of the unique indexes *)
}.

Definition matches (q : Filter) (d : Doc) : bool :=
  forallb (λ kv, bool_decide (d !! kv.1 = Some kv.2)) q.
Arguments matches : simpl never.

Fixpoint findOne (q : Filter) (ds : list Doc) : option Doc :=
  match ds with
  | [] => None
  | d :: rest => if matches q d then Some d else findOne q rest
  end.

Definition find (q : Filter) (ds : list Doc) : list Doc :=
  List.filter (matches q) ds.

(** [updateOne(q, { $set: upd })]: the first matching document gets the
    fields of [upd], overriding the ones it has. *)
Fixpoint updateOne (q : Filter) (upd : Doc) (ds : list Doc) : list Doc :=
  match ds with
  | [] => []
  | d :: rest =>
      if matches q d then (upd ∪ d) :: rest else d :: updateOne q upd rest
  end.

Fixpoint deleteOne (q : Filter) (ds : list Doc) : list Doc :=
  match ds with
  | [] => []
  | d :: rest => if matches q d then rest else d :: deleteOne q rest
  end.

(** The entry of a document in an index: the values of the indexed fields
    (a missing field is indexed as null). *)
Definition indexKey (fields : list string) (d : Doc) : list (option Value) :=
  (λ k, d !! k) <$> fields.

Definition violates (fields : list string) (d : Doc) (ds : list Doc) : bool :=
  existsb (λ d', bool_decide (indexKey fields d' = indexKey fields d)) ds.

(** [insertOne] appends the document unless a unique index already holds
    its key, in which case the driver throws error E11000. *)
Definition insertOne (d : Doc) (c : Collection) : option Collection :=
  if existsb (λ fields, violates fields d (docs c)) (uniqueIndexes c)
  then None
  else Some {| docs := docs c ++ [d]; uniqueIndexes := uniqueIndexes c |}.

Definition withDocs (f : list Doc → list Doc) (c : Collection) : Collection :=
  {| docs := f (docs c); uniqueIndexes := uniqueIndexes c |}.

Definition createIndex (fields : list string) (unique : bool)
    (c : Collection) : Collection :=
  if unique
  then {| docs := docs c; uniqueIndexes := uniqueIndexes c ++ [fields] |}
  else c.

(** [services/models.ts]: the two stored shapes. *)
Record GitHubIdentity := {
  username : string;
  email : option string;
  identityKey : string;
  certificateSerialNumber : option string;
  certificateType : option string;
  createdAt : Z;
  updatedAt : Z
}.

Record DB := {
  bounties : Collection;
  githubIdentities : list GitHubIdentity
}.

(** The bounty-collection part of [createMongoDBIndexes]. *)
Definition createMongoDBIndexes (db : DB) : DB :=
  {| bounties :=
       createIndex ["deadline"] false
       (createIndex ["status"] false
       (createIndex ["funderIdentityKey"] false
       (createIndex ["repoOwner"] false
       (createIndex ["issueId"] false
       (createIndex ["txid"; "outputIndex"; "topic"] true (bounties db))))));
     githubIdentities := githubIdentities db |}.

(** [setup/setup-mongo.ts] on a fresh database. *)
Definition setupMongoDB : DB :=
  createMongoDBIndexes
    {| bounties := {| docs := []; uniqueIndexes := [] |};
       githubIdentities := [] |}.

Definition keyFields : list string := ["txid"; "outputIndex"; "topic"].

(** The indexes are those [createMongoDBIndexes] creates: the only unique
    one is on [(txid, outputIndex, topic)]. *)
Definition KeyIndexed (db : DB) : Prop :=
  uniqueIndexes (bounties db) = [keyFields].

(** No two stored records share [(txid, outputIndex, topic)]. *)
Definition KeyUnique (db : DB) : Prop :=
  NoDup (indexKey keyFields <$> docs (bounties db)).

(** ** Computations over the database

    A thrown exception does not roll the database back, so the state is
    threaded through failures as well. *)
Inductive Result (A : Type) :=
  | Ok (a : A)
  | Throw (e : string).
Arguments Ok {A} a.
Arguments Throw {A} e.

Definition M (A : Type) : Type := DB → Result A * DB.

Definition ret {A} (a : A) : M A := λ db, (Ok a, db).

Definition throw {A} (e : string) : M A := λ db, (Throw e, db).

Definition bind {A B} (m : M A) (k : A → M B) : M B :=
  λ db, match m db with
        | (Ok a, db') => k a db'
        | (Throw e, db') => (Throw e, db')
        end.

Definition tryCatch {A} (m : M A) (handler : string → M A) : M A :=
  λ db, match m db with
        | (Ok a, db') => (Ok a, db')
        | (Throw e, db') => handler e db'
        end.

(** The computation throws [msg] and leaves the database as it was. *)
Definition throwsUnchanged {A} (m : M A) (msg : string) (db : DB) : Prop :=
  m db = (Throw msg, db).

(** An external call that may throw and does not touch the database. *)
Definition call {A} (r : Result A) : M A := λ db, (r, db).

Definition bountiesFindOne (q : Filter) : M (option Doc) :=
  λ db, (Ok (findOne q (docs (bounties db))), db).

Definition bountiesFind (q : Filter) : M (list Doc) :=
  λ db, (Ok (find q (docs (bounties db))), db).

Definition setBounties (c : Collection) (db : DB) : DB :=
  {| bounties := c; githubIdentities := githubIdentities db |}.

Definition bountiesInsertOne (d : Doc) : M unit :=
  λ db, match insertOne d (bounties db) with
        | Some c => (Ok tt, setBounties c db)
        | None => (Throw "E11000 duplicate key error", db)
        end.

Definition bountiesUpdateOne (q : Filter) (upd : Doc) : M unit :=
  λ db, (Ok tt, setBounties (withDocs (updateOne q upd) (bounties db)) db).

Definition bountiesDeleteOne (q : Filter) : M unit :=
  λ db, (Ok tt, setBounties (withDocs (deleteOne q) (bounties db)) db).

(** [findOne({ username })] on the identity collection. *)
Definition resolve (u : string) (ids : list GitHubIdentity)
    : option GitHubIdentity :=
  List.find (λ i, bool_decide (username i = u)) ids.

Definition identitiesFindOne (u : string) : M (option GitHubIdentity) :=
  λ db, (Ok (resolve u (githubIdentities db)), db).

End Mongo.

Notation "'let!' x ':=' m 'in' k" := (Mongo.bind m (λ x, k))
  (at level 10, x name, m at level 99, k at level 200, only parsing).
Notation "'do!' m 'in' k" := (Mongo.bind m (λ _, k))
  (at level 10, m at level 99, k at level 200, only parsing).

(** * The output classifier ([BountyTopicManager]) *)

Module TopicManager.

(** [script.length > 0 && script[0] === 0x76] *)
Definition isBountyLockingScript (script : list Z) : bool :=
  bool_decide (0 < length script)%nat
  && bool_decide (script !! 0%nat = Some 0x76).

Record AdmittanceInstructions := {
  outputsToAdmit : list nat;
  coinsToRetain : list nat
}.

(** The loop over [tx.outputs], from index [i] on. *)
Fixpoint outputsFrom (i : nat) (lockingScripts : list (list Z)) : list nat :=
  match lockingScripts with
  | [] => []
  | script :: rest =>
      if isBountyLockingScript script
      then i :: outputsFrom (S i) rest
      else outputsFrom (S i) rest
  end.

(** [identifyAdmissibleOutputs], given the locking scripts of the outputs
    of the transaction parsed from the BEEF. *)
Definition identifyAdmissibleOutputs (lockingScripts : list (list Z))
    (previousCoins : list nat) : AdmittanceInstructions :=
  {| outputsToAdmit := outputsFrom 0 lockingScripts;
     coinsToRetain := previousCoins |}.

End TopicManager.

(** * The lifecycle index and query resolver ([BountyLookupService]) *)

Module LookupService.
Import Mongo.

Definition keyFilter (txid : string) (outputIndex : Z) (topic : string)
    : Filter :=
  [("txid", VStr txid); ("outputIndex", VNum outputIndex);
   ("topic", VStr topic)].

(** The value an index on [(txid, outputIndex, topic)] holds for a key. *)
Definition storedKey (txid : string) (outputIndex : Z) (topic : string)
    : list (option Value) :=
  [Some (VStr txid); Some (VNum outputIndex); Some (VStr topic)].

(** The status of the record stored under a key, if there is one. *)
Definition statusOf (txid : string) (outputIndex : Z) (topic : string)
    (db : DB) : option Value :=
  findOne (keyFilter txid outputIndex topic) (docs (bounties db))
  ≫= λ record, record !! "status".

(** Every handler takes the reading of the clock ([new Date()]) as [now].
    The object [outputAdded] inserts: *)
Definition activeRecord (txid : string) (outputIndex : Z)
    (outputScript : list Z) (topic : string) (now : Z) : Doc :=
  <["txid" := VStr txid]>
  (<["outputIndex" := VNum outputIndex]>
  (<["script" := VArr outputScript]>
  (<["topic" := VStr topic]>
  (<["status" := VStr "active"]>
  (<["createdAt" := VDate now]> ∅))))).

(** The [$set] of [outputSpent]. *)
Definition spentUpdate (now : Z) : Doc :=
  <["status" := VStr "completed"]> (<["completedAt" := VDate now]> ∅).

Definition outputAdded (txid : string) (outputIndex : Z)
    (outputScript : list Z) (topic : string) (now : Z) : M unit :=
  tryCatch
    (bountiesInsertOne
       (activeRecord txid outputIndex outputScript topic now))
    (λ _, ret tt).

Definition outputSpent (txid : string) (outputIndex : Z) (topic : string)
    (now : Z) : M unit :=
  tryCatch
    (bountiesUpdateOne (keyFilter txid outputIndex topic) (spentUpdate now))
    (λ _, ret tt).

Definition outputDeleted (txid : string) (outputIndex : Z) (topic : string)
    : M unit :=
  tryCatch
    (bountiesDeleteOne (keyFilter txid outputIndex topic))
    (λ _, ret tt).

(** The [query] object of a [LookupQuestion]. *)
Record LookupQuery := {
  q_issueId : option string;
  q_repoOwner : option string;
  q_githubUsername : option string;
  q_status : option string
}.

Definition emptyQuery : LookupQuery :=
  {| q_issueId := None; q_repoOwner := None;
     q_githubUsername := None; q_status := None |}.

(** JavaScript truthiness of an optional string. *)
Definition truthy (s : option string) : bool :=
  match s with
  | Some s => negb (String.eqb s "")
  | None => false
  end.
Arguments truthy : simpl never.

(** [if (v) mongoQuery.field = v] *)
Definition addFilter (field : string) (v : option string) (mongoQuery : Filter)
    : Filter :=
  match v with
  | Some s => if truthy v then mongoQuery ++ [(field, VStr s)] else mongoQuery
  | None => mongoQuery
  end.

(** A reference [{ txid, outputIndex }] read off a stored record. *)
Definition Reference : Type := option Value * option Value.

Inductive LookupResult :=
  | OutputList (outputs : list (list Z))  (* { type: 'output-list', outputs } *)
  | Formula (refs : list Reference).

Definition toFormula (results : list Doc) : list Reference :=
  (λ result, (result !! "txid", result !! "outputIndex")) <$> results.

Definition baseQuery (query : LookupQuery) : Filter :=
  addFilter "status" (q_status query)
  (addFilter "repoOwner" (q_repoOwner query)
  (addFilter "issueId" (q_issueId query)
  [("topic", VStr "tm_bounty")])).

Definition lookup (question_query : option LookupQuery) : M LookupResult :=
  let query := default emptyQuery question_query in
  let mongoQuery := baseQuery query in
  let findMatching (mongoQuery : Filter) : M LookupResult :=
    let! results := bountiesFind mongoQuery in
    ret (Formula (toFormula results)) in
  match q_githubUsername query with
  | Some githubUsername =>
      if truthy (Some githubUsername) then
        let! userIdentity := identitiesFindOne githubUsername in
        match userIdentity with
        | Some userIdentity =>
            findMatching
              (mongoQuery
                 ++ [("identityKey", VStr (identityKey userIdentity))])
        | None => ret (OutputList [])
        end
      else findMatching mongoQuery
  | None => findMatching mongoQuery
  end.

End LookupService.

(** * The orchestration service ([BountyService]) *)

Module Service.
Import Mongo.

(** The unspent output handed to [instance.bind]. *)
Record UTXO := {
  txId : string;
  outputIndex : Z;
  script : option Value;    (* bounty.script *)
  satoshis : option Value   (* bounty.amount *)
}.

(** Wallet, key library, contract library and ledger as the service sees
    them.  Each call either returns or throws; none touches the index. *)
Record Collaborators := {
  (* wallet.getPublicKey({ identityKey: true, hdKey }) *)
  getPublicKey : option Value → Result PubKey;
  (* wallet.signMessage(message, key) *)
  signMessage : string → option Value → Result Sig;
  (* key.toAddress().toByteString() and key.toString() *)
  toAddress : PubKey → Addr;
  keyToString : PubKey → string;
  (* PublicKey.fromString(s) *)
  publicKeyFromString : option Value → Result PubKey;
  (* the argument check of the contract constructor's super(...) call *)
  checkAddrArgument : option Value → Result Addr;
  (* instance.lockingScript.toBinary() *)
  lockingScript : Contract.BountyContract → list Z;
  (* instance.connect(wallet), instance.deploy(amount), instance.bind(utxo) *)
  connect : Contract.BountyContract → Result unit;
  deploy : Contract.BountyContract → Z → Result string;
  bindUtxo : Contract.BountyContract → UTXO → Result unit;
  (* the transaction instance.methods.m(...) builds, and its broadcast *)
  buildCallTx : Contract.BountyContract → UTXO → Contract.MethodCall
                → Contract.SpendingTx;
  broadcast : Contract.SpendingTx → Result string;
  (* String(date), and the number a string or array compares as *)
  dateToString : Z → string;
  toNumber : Value → option Z;
  (* BigInt(seconds + days * 24 * 60 * 60) when that sum lies beyond the
     safe integers: the number is then a rounding of it or an infinity,
     which BigInt refuses *)
  bigIntBeyondSafe : Z → Z → Result Z
}.

(** [s.replace(/\D/g, '')] *)
Definition isDigit (c : Ascii.ascii) : bool :=
  let n := Z.of_nat (Ascii.nat_of_ascii c) in (48 <=? n) && (n <=? 57).

Fixpoint stripNonDigits (s : string) : string :=
  match s with
  | EmptyString => EmptyString
  | String c rest =>
      if isDigit c then String c (stripNonDigits rest)
      else stripNonDigits rest
  end.

(** [BigInt(digits)] on a string of decimal digits ([BigInt('')] is 0). *)
Fixpoint bigIntFrom (acc : Z) (digits : string) : Z :=
  match digits with
  | EmptyString => acc
  | String c rest =>
      bigIntFrom (10 * acc + (Z.of_nat (Ascii.nat_of_ascii c) - 48)) rest
  end.

Definition BigInt (digits : string) : Z := bigIntFrom 0 digits.

(** [Number.MAX_SAFE_INTEGER]: up to it the arithmetic on integers is
    exact. *)
Definition maxSafeInteger : Z := 9007199254740991.

(** [BigInt(bounty.issueId.replace(/\D/g, ''))] on a stored field: reading
    [replace] off anything but a string is a TypeError. *)
Definition issueNumber (issueId : option Value) : Result Z :=
  match issueId with
  | Some (VStr s) => Ok (BigInt (stripNonDigits s))
  | _ => Throw "TypeError: bounty.issueId.replace is not a function"
  end.

(** [BigInt(Math.floor(bounty.deadline.getTime() / 1000))]: the time value
    of an Invalid Date is NaN, which [BigInt] refuses. *)
Definition deadlineSeconds (deadline : option Value) : Result Z :=
  match deadline with
  | Some (VDate ms) => Ok (ms / 1000)
  | Some VInvalidDate =>
      Throw "RangeError: NaN cannot be converted to a BigInt"
  | _ => Throw "TypeError: bounty.deadline.getTime is not a function"
  end.

Section Workflows.
Context `{Contract.ScryptLib}.
Variable C : Collaborators.
Variable certifierPublicKey : string.

(** Interpolation of a stored field into a template string. *)
Definition show (v : option Value) : string :=
  match v with
  | None => "undefined"
  | Some (VStr s) => s
  | Some (VNum n) => pretty n
  | Some (VDate ms) => dateToString C ms
  | Some VInvalidDate => "Invalid Date"
  | Some (VArr bytes) => String.concat "," (pretty <$> bytes)
  end.

(** [new Date() < bounty.deadline]; a comparison with NaN is false. *)
Definition beforeDeadline (now : Z) (deadline : option Value) : bool :=
  match deadline with
  | None => false
  | Some (VDate ms) => now <? ms
  | Some VInvalidDate => false
  | Some (VNum n) => now <? n
  | Some v => match toNumber C v with Some n => now <? n | None => false end
  end.

(** [findOne({ username: u })] for a value read off a record: every stored
    identity has a string [username], so no other value finds one. *)
Definition resolveValue (u : option Value) (ids : list GitHubIdentity)
    : option GitHubIdentity :=
  match u with
  | Some (VStr s) => resolve s ids
  | _ => None
  end.

(** [GitHubIdentityService.getGitHubIdentityByUsername] *)
Definition getGitHubIdentityByUsername (u : option Value)
    : M (option GitHubIdentity) :=
  λ db, (Ok (resolveValue u (githubIdentities db)), db).

(** [BigInt(deadline)] for the number
    [deadline = seconds + deadlineDays * 24 * 60 * 60]. *)
Definition deadlineBigInt (seconds deadlineDays : Z) : Result Z :=
  let deadline := seconds + deadlineDays * 24 * 60 * 60 in
  if Z.abs deadline <=? maxSafeInteger then Ok deadline
  else bigIntBeyondSafe C seconds deadlineDays.

Definition newBountyContract (funderAddr : option Value) (issueId : Z)
    (repoOwner certifierPubKey : PubKey) (deadline : Z)
    : Result Contract.BountyContract :=
  match checkAddrArgument C funderAddr with
  | Ok addr =>
      Ok {| Contract.funderAddr := addr;
            Contract.issueId := issueId;
            Contract.repoOwner := repoOwner;
            Contract.certifierPubKey := certifierPubKey;
            Contract.deadline := deadline |}
  | Throw e => Throw e
  end.

(** [instance.methods.m(...)]: the call transaction is built, must satisfy
    the contract, and is then broadcast; the result is its id. *)
Definition callMethod (instance : Contract.BountyContract) (utxo : UTXO)
    (mcall : Contract.MethodCall) : Result string :=
  let tx := buildCallTx C instance utxo mcall in
  match Contract.unlock instance tx mcall with
  | Contract.Accept => broadcast C tx
  | Contract.Reject msg => Throw msg
  end.

Definition txFilter (txid : string) (outputIndex : Z) : Filter :=
  [("txid", VStr txid); ("outputIndex", VNum outputIndex)].

Definition notActive (bounty : Doc) : bool :=
  bool_decide (bounty !! "status" ≠ Some (VStr "active")).

(** The spend of [instance.methods.m(...)] went through with id [id]. *)
Definition SpendSucceeded (instance : Contract.BountyContract) (utxo : UTXO)
    (mcall : Contract.MethodCall) (id : string) : Prop :=
  Contract.unlock instance (buildCallTx C instance utxo mcall) mcall
  = Contract.Accept
  ∧ broadcast C (buildCallTx C instance utxo mcall) = Ok id.

(** The [$set]s of the three workflows. *)
Definition payUpdate (solverIdentityKey solutionPullRequestId : string)
    (now : Z) : Doc :=
  <["status" := VStr "completed"]>
  (<["solverIdentityKey" := VStr solverIdentityKey]>
  (<["solutionPullRequestId" := VStr solutionPullRequestId]>
  (<["completedAt" := VDate now]> ∅))).

Definition refundUpdate (now : Z) : Doc :=
  <["status" := VStr "expired"]> (<["completedAt" := VDate now]> ∅).

Definition cancelUpdate (now : Z) : Doc :=
  <["status" := VStr "canceled"]> (<["completedAt" := VDate now]> ∅).

Definition utxoOf (txid : string) (outputIndex : Z) (bounty : Doc) : UTXO :=
  {| txId := txid; outputIndex := outputIndex;
     script := bounty !! "script"; satoshis := bounty !! "amount" |}.

(** A workflow committed: the record was found, the spend went through,
    and only then [upd] was written to it. *)
Definition Committed (txid : string) (outputIndex : Z) (upd : Doc)
    (db db' : DB) (id : string) : Prop :=
  ∃ bounty instance mcall,
    findOne (txFilter txid outputIndex) (docs (bounties db)) = Some bounty
    ∧ SpendSucceeded instance (utxoOf txid outputIndex bounty) mcall id
    ∧ db' = setBounties
              (withDocs (updateOne (txFilter txid outputIndex) upd)
                 (bounties db)) db.

(** The clock is read twice: [now] is [Date.now()], from which the
    deadline is computed before the deploy, and [later] the [new Date()]
    stored as [createdAt] after it. *)
Definition createBounty (issueId repoOwner repoOwnerGithubUsername : string)
    (amountSatoshis : Z) (deadlineDays : option Z) (now later : Z)
    : M (string * Z) :=
  let deadlineDays := default 30 deadlineDays in
  tryCatch
    (let! repoOwnerIdentity :=
       getGitHubIdentityByUsername (Some (VStr repoOwnerGithubUsername)) in
     match repoOwnerIdentity with
     | None =>
         throw ("Repository owner " +:+ repoOwnerGithubUsername
                +:+ " is not registered")
     | Some repoOwnerIdentity =>
     let! funderKey := call (getPublicKey C None) in
     let seconds := now / 1000 in
     let deadline := seconds + deadlineDays * 24 * 60 * 60 in
     let! ownerKey :=
       call (publicKeyFromString C
               (Some (VStr (identityKey repoOwnerIdentity)))) in
     let! certifierKey :=
       call (publicKeyFromString C (Some (VStr certifierPublicKey))) in
     let! deadlineArgument := call (deadlineBigInt seconds deadlineDays) in
     let! instance :=
       call (newBountyContract (Some (VStr (toAddress C funderKey)))
               (BigInt (stripNonDigits issueId)) ownerKey certifierKey
               deadlineArgument) in
     do! call (connect C instance) in
     let! deployTxId := call (deploy C instance amountSatoshis) in
     let bountyDoc : Doc :=
       <["txid" := VStr deployTxId]>
       (<["outputIndex" := VNum 0]>
       (<["script" := VArr (lockingScript C instance)]>
       (<["topic" := VStr "tm_bounty"]>
       (<["issueId" := VStr issueId]>
       (<["repoOwner" := VStr repoOwner]>
       (<["funderIdentityKey" := VStr (keyToString C funderKey)]>
       (<["status" := VStr "active"]>
       (<["amount" := VNum amountSatoshis]>
       (<["deadline" := newDate (deadline * 1000)]>
       (<["createdAt" := VDate later]> ∅)))))))))) in
     do! bountiesInsertOne bountyDoc in
     ret (deployTxId, 0)
     end)
    (λ _, throw "Failed to create bounty").

Definition payBounty (txid : string) (outputIndex : Z)
    (solverGithubUsername solutionPullRequestId : string) (now : Z)
    : M string :=
  tryCatch
    (let! found := bountiesFindOne (txFilter txid outputIndex) in
     match found with
     | None => throw "Bounty not found or not active"
     | Some bounty =>
     if notActive bounty then throw "Bounty not found or not active" else
     let! solverIdentity :=
       getGitHubIdentityByUsername (Some (VStr solverGithubUsername)) in
     match solverIdentity with
     | None =>
         throw ("Solver " +:+ solverGithubUsername +:+ " is not registered")
     | Some solverIdentity =>
     let! repoOwnerIdentity :=
       getGitHubIdentityByUsername (bounty !! "repoOwner") in
     match repoOwnerIdentity with
     | None =>
         throw ("Repository owner " +:+ show (bounty !! "repoOwner")
                +:+ " is not registered")
     | Some repoOwnerIdentity =>
     let! issue := call (issueNumber (bounty !! "issueId")) in
     let! ownerKey :=
       call (publicKeyFromString C
               (Some (VStr (identityKey repoOwnerIdentity)))) in
     let! certifierKey :=
       call (publicKeyFromString C (Some (VStr certifierPublicKey))) in
     let! deadline := call (deadlineSeconds (bounty !! "deadline")) in
     let! instance :=
       call (newBountyContract (bounty !! "funderAddress") issue ownerKey
               certifierKey deadline) in
     let utxo := utxoOf txid outputIndex bounty in
     do! call (connect C instance) in
     do! call (bindUtxo C instance utxo) in
     let! solverSig :=
       call (signMessage C
               ("I solved issue " +:+ show (bounty !! "issueId")
                +:+ " with PR " +:+ solutionPullRequestId)
               (Some (VStr (identityKey solverIdentity)))) in
     let! ownerSig :=
       call (signMessage C
               ("I approve PR " +:+ solutionPullRequestId +:+ " for issue "
                +:+ show (bounty !! "issueId"))
               (Some (VStr (identityKey repoOwnerIdentity)))) in
     let! certifierSig :=
       call (signMessage C
               ("Certified payout for " +:+ show (bounty !! "issueId")
                +:+ " to " +:+ solverGithubUsername)
               (Some (VStr certifierPublicKey))) in
     let! solverKey :=
       call (publicKeyFromString C
               (Some (VStr (identityKey solverIdentity)))) in
     let! payTxId :=
       call (callMethod instance utxo
               (Contract.CallPaySolver solverSig solverKey ownerSig
                  certifierSig)) in
     do! bountiesUpdateOne (txFilter txid outputIndex)
           (payUpdate (identityKey solverIdentity) solutionPullRequestId
              now) in
     ret payTxId
     end end end)
    (λ _, throw "Failed to pay bounty").

Definition refundExpiredBounty (txid : string) (outputIndex : Z) (now : Z)
    : M string :=
  tryCatch
    (let! found := bountiesFindOne (txFilter txid outputIndex) in
     match found with
     | None => throw "Bounty not found or not active"
     | Some bounty =>
     if notActive bounty then throw "Bounty not found or not active" else
     if beforeDeadline now (bounty !! "deadline")
     then throw "Bounty deadline has not passed yet" else
     let! funderKey := call (getPublicKey C (bounty !! "funderIdentityKey")) in
     let! issue := call (issueNumber (bounty !! "issueId")) in
     let! ownerKey :=
       call (publicKeyFromString C (bounty !! "repoOwnerIdentityKey")) in
     let! certifierKey :=
       call (publicKeyFromString C (Some (VStr certifierPublicKey))) in
     let! deadline := call (deadlineSeconds (bounty !! "deadline")) in
     let! instance :=
       call (newBountyContract (Some (VStr (toAddress C funderKey))) issue
               ownerKey certifierKey deadline) in
     let utxo := utxoOf txid outputIndex bounty in
     do! call (connect C instance) in
     do! call (bindUtxo C instance utxo) in
     let! funderSig :=
       call (signMessage C
               ("Refunding expired bounty for " +:+ show (bounty !! "issueId"))
               (bounty !! "funderIdentityKey")) in
     let! funderPubKey :=
       call (publicKeyFromString C (bounty !! "funderIdentityKey")) in
     let! refundTxId :=
       call (callMethod instance utxo
               (Contract.CallRefundExpired funderSig funderPubKey)) in
     do! bountiesUpdateOne (txFilter txid outputIndex) (refundUpdate now) in
     ret refundTxId
     end)
    (λ _, throw "Failed to refund expired bounty").

Definition cancelBounty (txid : string) (outputIndex : Z) (now : Z)
    : M string :=
  tryCatch
    (let! found := bountiesFindOne (txFilter txid outputIndex) in
     match found with
     | None => throw "Bounty not found or not active"
     | Some bounty =>
     if notActive bounty then throw "Bounty not found or not active" else
     let! repoOwnerIdentity :=
       getGitHubIdentityByUsername (bounty !! "repoOwner") in
     match repoOwnerIdentity with
     | None =>
         throw ("Repository owner " +:+ show (bounty !! "repoOwner")
                +:+ " is not registered")
     | Some repoOwnerIdentity =>
     let! issue := call (issueNumber (bounty !! "issueId")) in
     let! ownerKey :=
       call (publicKeyFromString C
               (Some (VStr (identityKey repoOwnerIdentity)))) in
     let! certifierKey :=
       call (publicKeyFromString C (Some (VStr certifierPublicKey))) in
     let! deadline := call (deadlineSeconds (bounty !! "deadline")) in
     let! instance :=
       call (newBountyContract (bounty !! "funderAddress") issue ownerKey
               certifierKey deadline) in
     let utxo := utxoOf txid outputIndex bounty in
     do! call (connect C instance) in
     do! call (bindUtxo C instance utxo) in
     let! funderSig :=
       call (signMessage C
               ("I cancel bounty for " +:+ show (bounty !! "issueId"))
               (bounty !! "funderIdentityKey")) in
     let! ownerSig :=
       call (signMessage C
               ("I approve cancellation of bounty for "
                +:+ show (bounty !! "issueId"))
               (Some (VStr (identityKey repoOwnerIdentity)))) in
     let! funderPubKey :=
       call (publicKeyFromString C (bounty !! "funderIdentityKey")) in
     let! cancelTxId :=
       call (callMethod instance utxo
               (Contract.CallCancelBounty funderSig funderPubKey ownerSig)) in
     do! bountiesUpdateOne (txFilter txid outputIndex) (cancelUpdate now) in
     ret cancelTxId
     end end)
    (λ _, throw "Failed to cancel bounty").

End Workflows.

End Service.

(** * Stores the code can produce

    The index after set-up and any sequence of ledger observations and
    workflow calls, whatever the collaborators answer.  The identity store
    belongs to the identity collaborator and may change freely. *)

Module Lifecycle.
Import Mongo.

Inductive Produced : DB → Prop :=
  | produced_setup : Produced setupMongoDB
  | produced_identities db ids :
      Produced db →
      Produced {| bounties := bounties db; githubIdentities := ids |}
  | produced_outputAdded db txid outputIndex script topic now :
      Produced db →
      Produced (LookupService.outputAdded txid outputIndex script topic now
                  db).2
  | produced_outputSpent db txid outputIndex topic now :
      Produced db →
      Produced (LookupService.outputSpent txid outputIndex topic now db).2
  | produced_outputDeleted db txid outputIndex topic :
      Produced db →
      Produced (LookupService.outputDeleted txid outputIndex topic db).2
  | produced_createBounty db C certifier
        issueId repoOwner ownerUsername amount days now later :
      Produced db →
      Produced (Service.createBounty C certifier issueId repoOwner
                  ownerUsername amount days now later db).2
  | produced_payBounty db (L : Contract.ScryptLib) C certifier
        txid outputIndex solver pr now :
      Produced db →
      Produced (Service.payBounty C certifier txid outputIndex solver pr now
                  db).2
  | produced_refundExpiredBounty db (L : Contract.ScryptLib) C certifier
        txid outputIndex now :
      Produced db →
      Produced (Service.refundExpiredBounty C certifier txid outputIndex now
                  db).2
  | produced_cancelBounty db (L : Contract.ScryptLib) C certifier
        txid outputIndex now :
      Produced db →
      Produced (Service.cancelBounty C certifier txid outputIndex now db).2.

(** No stored record carries the field the username filter matches on. *)
Definition NoIdentityKey (db : DB) : Prop :=
  Forall (λ d : Doc, d !! "identityKey" = None) (docs (bounties db)).

(** What every produced store satisfies. *)
Definition Consistent (db : DB) : Prop :=
  KeyIndexed db ∧ KeyUnique db ∧ NoIdentityKey db.

End Lifecycle.

(** * A reference instantiation

    Small stand-ins for the cryptographic library and the collaborators,
    used to run the model on concrete data. *)

Module Demo.
Import Mongo.

#[local] Instance lib : Contract.ScryptLib := {|
  Contract.checkSig := λ _ sig pk, bool_decide (sig = "sig(" +:+ pk +:+ ")");
  Contract.timeLock := λ ctx d,
    bool_decide (Contract.sequence ctx < 0xffffffff)
    && (d <=? Contract.locktime ctx);
  Contract.chainTime := Contract.locktime;
  Contract.hash256 := λ x, "h:" +:+ x;
  Contract.pubKey2Addr := λ pk, "addr(" +:+ pk +:+ ")";
  Contract.buildPublicKeyHashOutput := λ addr amount,
    pretty amount +:+ ":" +:+ addr +:+ ";"
|}.

(** The same library on a chain whose time has reached no deadline. *)
Definition earlyLib : Contract.ScryptLib :=
  {| Contract.checkSig := @Contract.checkSig lib;
     Contract.timeLock := λ _ _, false;
     Contract.chainTime := λ _, 0;
     Contract.hash256 := @Contract.hash256 lib;
     Contract.pubKey2Addr := @Contract.pubKey2Addr lib;
     Contract.buildPublicKeyHashOutput :=
       @Contract.buildPublicKeyHashOutput lib |}.

Definition escrow : Contract.BountyContract :=
  {| Contract.funderAddr := "addr(funder)";
     Contract.issueId := 42;
     Contract.repoOwner := "owner";
     Contract.certifierPubKey := "certifier";
     Contract.deadline := 1700000000 |}.

(** A refund spend one second after the deadline. *)
Definition refundTx : Contract.SpendingTx :=
  {| Contract.tx_outputs := ["50000:addr(funder);"];
     Contract.tx_locktime := 1700000001;
     Contract.tx_input_index := 0;
     Contract.tx_input_sequence := 0;
     Contract.tx_input_value := 50000 |}.

(** The same spend one second before the deadline. *)
Definition earlyRefundTx : Contract.SpendingTx :=
  {| Contract.tx_outputs := ["50000:addr(funder);"];
     Contract.tx_locktime := 1699999999;
     Contract.tx_input_index := 0;
     Contract.tx_input_sequence := 0;
     Contract.tx_input_value := 50000 |}.

(** A payout whose second output goes to a third party. *)
Definition payTxWithExtraOutput : Contract.SpendingTx :=
  {| Contract.tx_outputs := ["50000:addr(solver);"; "7:addr(mallory);"];
     Contract.tx_locktime := 0;
     Contract.tx_input_index := 0;
     Contract.tx_input_sequence := 0xffffffff;
     Contract.tx_input_value := 50000 |}.

Definition payCall : Contract.MethodCall :=
  Contract.CallPaySolver "sig(solver)" "solver" "sig(owner)" "sig(certifier)".

Definition refundCall : Contract.MethodCall :=
  Contract.CallRefundExpired "sig(funder)" "funder".

Definition stringArgument (v : option Value) (what : string)
    : Result string :=
  match v with
  | Some (VStr s) => Ok s
  | _ => Throw ("invalid " +:+ what)
  end.

Definition collaborators : Service.Collaborators :=
  {| Service.getPublicKey := λ hdKey,
       match hdKey with
       | None => Ok "funder"
       | _ => stringArgument hdKey "hdKey"
       end;
     Service.signMessage := λ _ key,
       match stringArgument key "key" with
       | Ok k => Ok ("sig(" +:+ k +:+ ")")
       | Throw e => Throw e
       end;
     Service.toAddress := λ pk, "addr(" +:+ pk +:+ ")";
     Service.keyToString := λ pk, pk;
     Service.publicKeyFromString := λ s, stringArgument s "public key";
     Service.checkAddrArgument := λ a, stringArgument a "funderAddr";
     Service.lockingScript := λ c,
       [0x76; Contract.issueId c; Contract.deadline c];
     Service.connect := λ _, Ok tt;
     Service.deploy := λ _ _, Ok "deploy-tx";
     Service.bindUtxo := λ _ _, Ok tt;
     Service.buildCallTx := λ instance utxo mcall,
       let value :=
         match Service.satoshis utxo with Some (VNum n) => n | _ => 0 end in
       let tx0 :=
         {| Contract.tx_outputs := [];
            Contract.tx_locktime := Contract.deadline instance;
            Contract.tx_input_index := 0;
            Contract.tx_input_sequence := 0;
            Contract.tx_input_value := value |} in
       {| Contract.tx_outputs := [Contract.requiredPayout instance tx0 mcall];
          Contract.tx_locktime := Contract.deadline instance;
          Contract.tx_input_index := 0;
          Contract.tx_input_sequence := 0;
          Contract.tx_input_value := value |};
     Service.broadcast := λ _, Ok "spend-tx";
     Service.dateToString := λ ms, pretty ms;
     Service.toNumber := λ _, None;
     Service.bigIntBeyondSafe := λ _ _,
       Throw "RangeError: Infinity cannot be converted to a BigInt" |}.

Definition identityOf (user key : string) : GitHubIdentity :=
  {| username := user; email := None; identityKey := key;
     certificateSerialNumber := None; certificateType := None;
     createdAt := 0; updatedAt := 0 |}.

(** A set-up database with three registered users. *)
Definition db0 : DB :=
  {| bounties := bounties setupMongoDB;
     githubIdentities :=
       [identityOf "acme" "owner"; identityOf "bob" "solver";
        identityOf "carol" "funder"] |}.

(** Scenario 1 of the specification: a bounty on ["acme/widget#42"]. *)
Definition db1 : DB :=
  (Service.createBounty collaborators "certifier" "acme/widget#42" "acme"
     "acme" 50000 (Some 30) 1697408000000 1697408000250 db0).2.

(** The ledger observation of the same output, then of its spend. *)
Definition db2 : DB :=
  (LookupService.outputAdded "deploy-tx" 0 [0x76; 42; 1700000000] "tm_bounty"
     1697408000500 db1).2.

(** A record that also carries the two fields the pay, refund and cancel
    workflows read back. *)
Definition fullRecord : Doc :=
  <["txid" := VStr "t9"]>
  (<["outputIndex" := VNum 0]>
  (<["script" := VArr [0x76; 42; 1700000000]]>
  (<["topic" := VStr "tm_bounty"]>
  (<["issueId" := VStr "acme/widget#42"]>
  (<["repoOwner" := VStr "acme"]>
  (<["funderIdentityKey" := VStr "funder"]>
  (<["funderAddress" := VStr "addr(funder)"]>
  (<["repoOwnerIdentityKey" := VStr "owner"]>
  (<["status" := VStr "active"]>
  (<["amount" := VNum 50000]>
  (<["deadline" := VDate 1700000000000]>
  (<["createdAt" := VDate 1697408000000]> ∅)))))))))))).

Definition db9 : DB :=
  {| bounties := {| docs := [fullRecord]; uniqueIndexes := [keyFields] |};
     githubIdentities := githubIdentities db0 |}.

(** A record the refund workflow has marked [expired]. *)
Definition expiredRecord : Doc := <["status" := VStr "expired"]> fullRecord.

Definition canceledRecord : Doc :=
  <["txid" := VStr "t8"]> (<["status" := VStr "canceled"]> fullRecord).

Definition dbTerminal : DB :=
  {| bounties := {| docs := [expiredRecord; canceledRecord];
                    uniqueIndexes := [keyFields] |};
     githubIdentities := githubIdentities db0 |}.



(** Two records that carry an [identityKey] field, the one the username
    filter of the query resolver matches on. *)
Definition keyedRecord : Doc := <["identityKey" := VStr "funder"]> fullRecord.

Definition otherKeyedRecord : Doc :=
  <["txid" := VStr "t7"]> (<["identityKey" := VStr "solver"]> fullRecord).

Definition dbKeyed : DB :=
  {| bounties := {| docs := [keyedRecord; otherKeyedRecord];
                    uniqueIndexes := [keyFields] |};
     githubIdentities := githubIdentities db0 |}.

End Demo.

(** * Reading queries

    Vocabulary for stating what the query resolver returns. *)

Module QueryForms.
Import Mongo LookupService.

(** A filter value that is absent or the empty string filters nothing. *)
Definition dropEmpty (v : option string) : option string :=
  match v with
  | Some s => if String.eqb s "" then None else Some s
  | None => None
  end.

Definition normalise (query : LookupQuery) : LookupQuery :=
  {| q_issueId := dropEmpty (q_issueId query);
     q_repoOwner := dropEmpty (q_repoOwner query);
     q_githubUsername := dropEmpty (q_githubUsername query);
     q_status := dropEmpty (q_status query) |}.

(** The record passes the filter on [field], if there is one. *)
Definition passes (field : string) (v : option string) (d : Doc) : Prop :=
  ∀ s, dropEmpty v = Some s → d !! field = Some (VStr s).

(** The record is one the query selects, the username filter apart. *)
Definition selected (query : LookupQuery) (d : Doc) : Prop :=
  d !! "topic" = Some (VStr "tm_bounty")
  ∧ passes "issueId" (q_issueId query) d
  ∧ passes "repoOwner" (q_repoOwner query) d
  ∧ passes "status" (q_status query) d.

Definition referenceOf (d : Doc) : Reference :=
  (d !! "txid", d !! "outputIndex").

End QueryForms.

(** * The identity store ([GitHubIdentityService]) *)

Module IdentityService.
Import Mongo.

(** The parts of a certificate the service reads. *)
Record Certificate := {
  subject : string;              (* certificate.subject *)
  serialNumber : string;         (* certificate.serialNumber *)
  certType : string;             (* certificate.type *)
  githubUsername : string;       (* certificate.fields.githubUsername *)
  githubEmail : option string    (* certificate.fields.githubEmail *)
}.

Definition setIdentities (ids : list GitHubIdentity) (db : DB) : DB :=
  {| bounties := bounties db; githubIdentities := ids |}.

(** [findOne({ identityKey })] on the identity collection. *)
Definition resolveKey (key : string) (ids : list GitHubIdentity)
    : option GitHubIdentity :=
  List.find (λ i, bool_decide (identityKey i = key)) ids.

(** [$set: identity] on a stored identity: the five fields of [identity]
    replace the stored ones, the certificate fields stay. *)
Definition setIdentity (identity stored : GitHubIdentity) : GitHubIdentity :=
  {| username := username identity;
     email := email identity;
     identityKey := identityKey identity;
     certificateSerialNumber := certificateSerialNumber stored;
     certificateType := certificateType stored;
     createdAt := createdAt identity;
     updatedAt := updatedAt identity |}.

(** [updateOne({ username }, { $set: identity }, { upsert: true })]: the
    first identity of that username is updated, or the identity is
    inserted when there is none. *)
Fixpoint upsert (identity : GitHubIdentity) (ids : list GitHubIdentity)
    : list GitHubIdentity :=
  match ids with
  | [] => [identity]
  | i :: rest =>
      if bool_decide (username i = username identity)
      then setIdentity identity i :: rest
      else i :: upsert identity rest
  end.

(** The identities the upsert leaves alone. *)
Fixpoint others (u : string) (ids : list GitHubIdentity)
    : list GitHubIdentity :=
  match ids with
  | [] => []
  | i :: rest =>
      if bool_decide (username i = u) then rest else i :: others u rest
  end.

(** [$set: { certificateSerialNumber, certificateType, updatedAt }] on the
    first identity with the given key. *)
Fixpoint certify (key serial type : string) (now : Z)
    (ids : list GitHubIdentity) : list GitHubIdentity :=
  match ids with
  | [] => []
  | i :: rest =>
      if bool_decide (identityKey i = key)
      then {| username := username i; email := email i;
              identityKey := identityKey i;
              certificateSerialNumber := Some serial;
              certificateType := Some type;
              createdAt := createdAt i; updatedAt := now |} :: rest
      else i :: certify key serial type now rest
  end.

Section Identities.
(** Whether the unique index of [createMongoDBIndexes] on [identityKey] is
    in place on the identity collection. *)
Variable keyIndexed : bool.
(** [certificate.verify(certifierPublicKey)] and the wallet's
    [acquireCertificate] for a GitHub token. *)
Variable verify : Certificate → Result bool.
Variable acquireCertificate : string → Result Certificate.

Definition storeGitHubIdentity (username email identityKey : string)
    (now : Z) : M GitHubIdentity :=
  λ db,
    let identity :=
      {| Mongo.username := username; Mongo.email := Some email;
         Mongo.identityKey := identityKey;
         certificateSerialNumber := None; certificateType := None;
         createdAt := now; updatedAt := now |} in
    if keyIndexed
       && bool_decide
            (is_Some (resolveKey identityKey
                        (others username (githubIdentities db))))
    then (Throw "E11000 duplicate key error", db)
    else (Ok identity, setIdentities (upsert identity (githubIdentities db)) db).

Definition getGitHubIdentityByUsername (username : string)
    : M (option GitHubIdentity) :=
  identitiesFindOne username.

Definition getGitHubIdentityByKey (identityKey : string)
    : M (option GitHubIdentity) :=
  λ db, (Ok (resolveKey identityKey (githubIdentities db)), db).

Definition acquireGitHubCertificate (githubToken : string) (now : Z)
    : M (Certificate * string * string) :=
  tryCatch
    (let! certificate := call (acquireCertificate githubToken) in
     let username := githubUsername certificate in
     let email :=
       match githubEmail certificate with
       | Some e => if String.eqb e "" then "" else e
       | None => ""
       end in
     do! storeGitHubIdentity username email (subject certificate) now in
     ret (certificate, username, email))
    (λ _, throw "Failed to verify GitHub identity").

Definition verifyCertificate (certificate : Certificate) (now : Z)
    : M bool :=
  tryCatch
    (let! isValid := call (verify certificate) in
     if isValid then
       do! (λ db,
              (Ok tt,
               setIdentities
                 (certify (subject certificate) (serialNumber certificate)
                    (certType certificate) now (githubIdentities db)) db)) in
       ret isValid
     else ret isValid)
    (λ _, ret false).

End Identities.

End IdentityService.

(** * Listing bounties ([BountyService] queries) *)

Module ServiceQueries.
Import Mongo.

(** [cursor.limit(n)]: the first [|n|] documents; a limit of 0 is no
    limit. *)
Definition cursorLimit (limit : Z) (l : list Doc) : list Doc :=
  if limit =? 0 then l else take (Z.to_nat (Z.abs limit)) l.

Section Queries.
(** [cursor.sort({ createdAt: -1 })], the database engine's. *)
Variable sortByCreatedAtDesc : list Doc → list Doc.

Definition getActiveBounties (limit : option Z) : M (list Doc) :=
  λ db,
    (Ok (cursorLimit (default 20 limit)
           (sortByCreatedAtDesc
              (find [("status", VStr "active")] (docs (bounties db))))),
     db).

Definition getBountiesByIssue (issueId : string) : M (list Doc) :=
  λ db,
    (Ok (sortByCreatedAtDesc
           (find [("issueId", VStr issueId)] (docs (bounties db)))), db).

Definition getBountiesByFunder (funderIdentityKey : string)
    : M (list Doc) :=
  λ db,
    (Ok (sortByCreatedAtDesc
           (find [("funderIdentityKey", VStr funderIdentityKey)]
              (docs (bounties db)))), db).

Definition getBountiesByRepoOwner (repoOwner : string) : M (list Doc) :=
  λ db,
    (Ok (sortByCreatedAtDesc
           (find [("repoOwner", VStr repoOwner)] (docs (bounties db)))), db).

End Queries.

End ServiceQueries.

(** * The HTTP routes ([createBountyRouter]) *)

Module Router.
Import Mongo.

(** [req.query] of [GET /bounties]. *)
Record BountiesQuery := {
  g_status : option string;
  g_issueId : option string;
  g_repoOwner : option string;
  g_funder : option string
}.

(** [req.body] of [POST /bounties]. *)
Record CreateBody := {
  c_issueId : option string;
  c_repoOwner : option string;
  c_amount : option Z;
  c_deadlineDays : option Z
}.

(** What a handler sends: [res.status(code).json(body)], the code being
    200 for a bare [res.json]. *)
Inductive Body :=
  | Bounties (bounties : list Doc)
  | Failure (error : string) (message : option string)
  | CreatedRef (txid : string) (outputIndex : Z)
  | SpendId (txid : string).

Record Response := {
  code : Z;
  body : Body
}.

(** JavaScript truthiness of an optional number. *)
Definition truthyNumber (n : option Z) : bool :=
  match n with
  | Some n => negb (n =? 0)
  | None => false
  end.

(** A workflow called with [Number(outputIndex)]: a parameter that is not
    an integer equals no stored [outputIndex], so the workflow finds no
    bounty and throws its error. *)
Definition atIndex (index : option Z) (workflow : Z → M string)
    (failure : string) : M string :=
  match index with
  | Some n => workflow n
  | None => throw failure
  end.

Definition respond (code : Z) (body : Body) : M Response :=
  ret {| code := code; body := body |}.

Section Routes.
Context `{Contract.ScryptLib}.
Variable C : Service.Collaborators.
Variable certifierPublicKey : string.
Variable sortByCreatedAtDesc : list Doc → list Doc.
(** [Number(s)] on a route parameter, when it is an integer. *)
Variable Number : string → option Z.

(** [GET /api/bounties] *)
Definition getBounties (query : BountiesQuery) : M Response :=
  tryCatch
    (let! bounties :=
       if bool_decide (g_status query = Some "active") then
         ServiceQueries.getActiveBounties sortByCreatedAtDesc None
       else if LookupService.truthy (g_issueId query) then
         ServiceQueries.getBountiesByIssue sortByCreatedAtDesc
           (default "" (g_issueId query))
       else if LookupService.truthy (g_repoOwner query) then
         ServiceQueries.getBountiesByRepoOwner sortByCreatedAtDesc
           (default "" (g_repoOwner query))
       else if LookupService.truthy (g_funder query) then
         ServiceQueries.getBountiesByFunder sortByCreatedAtDesc
           (default "" (g_funder query))
       else ServiceQueries.getActiveBounties sortByCreatedAtDesc None in
     respond 200 (Bounties bounties))
    (λ _, respond 500 (Failure "Failed to fetch bounties" None)).

(** [POST /api/bounties]; [user] is [req.user.username] when
    [req.isAuthenticated()], [now] and [later] are the two readings of the
    clock [createBounty] takes. *)
Definition postBounty (user : option string) (body : CreateBody)
    (now later : Z) : M Response :=
  tryCatch
    (match user with
     | None => respond 401 (Failure "Authentication required" None)
     | Some username =>
     if negb (LookupService.truthy (c_issueId body))
        || negb (LookupService.truthy (c_repoOwner body))
        || negb (truthyNumber (c_amount body))
     then respond 400 (Failure "Missing required fields" None) else
     let! identity := identitiesFindOne username in
     match identity with
     | None =>
         respond 403
           (Failure "GitHub identity certificate required"
              (Some "Please get a GitHub identity certificate first"))
     | Some _ =>
     let repoOwner := default "" (c_repoOwner body) in
     let! result :=
       Service.createBounty C certifierPublicKey
         (default "" (c_issueId body)) repoOwner repoOwner
         (default 0 (c_amount body))
         (Some (if truthyNumber (c_deadlineDays body)
                then default 0 (c_deadlineDays body) else 30))
         now later in
     respond 201 (CreatedRef result.1 result.2)
     end end)
    (λ message, respond 500 (Failure "Failed to create bounty" (Some message))).

(** [POST /api/bounties/:txid/:outputIndex/claim] *)
Definition postClaim (user : option string) (txid outputIndex : string)
    (prId : option string) (now : Z) : M Response :=
  tryCatch
    (match user with
     | None => respond 401 (Failure "Authentication required" None)
     | Some username =>
     if negb (LookupService.truthy (Some txid))
        || negb (LookupService.truthy (Some outputIndex))
        || negb (LookupService.truthy prId)
     then respond 400 (Failure "Missing required fields" None) else
     let! identity := identitiesFindOne username in
     match identity with
     | None =>
         respond 403
           (Failure "GitHub identity certificate required"
              (Some "Please get a GitHub identity certificate first"))
     | Some _ =>
     let! payTxid :=
       atIndex (Number outputIndex)
         (λ index,
            Service.payBounty C certifierPublicKey txid index username
              (default "" prId) now)
         "Failed to pay bounty" in
     respond 200 (SpendId payTxid)
     end end)
    (λ message, respond 500 (Failure "Failed to claim bounty" (Some message))).

(** [POST /api/bounties/:txid/:outputIndex/refund] *)
Definition postRefund (user : option string) (txid outputIndex : string)
    (now : Z) : M Response :=
  tryCatch
    (match user with
     | None => respond 401 (Failure "Authentication required" None)
     | Some _ =>
     let! refundTxid :=
       atIndex (Number outputIndex)
         (λ index,
            Service.refundExpiredBounty C certifierPublicKey txid index now)
         "Failed to refund expired bounty" in
     respond 200 (SpendId refundTxid)
     end)
    (λ message, respond 500 (Failure "Failed to refund bounty" (Some message))).

(** [POST /api/bounties/:txid/:outputIndex/cancel] *)
Definition postCancel (user : option string) (txid outputIndex : string)
    (now : Z) : M Response :=
  tryCatch
    (match user with
     | None => respond 401 (Failure "Authentication required" None)
     | Some _ =>
     let! cancelTxid :=
       atIndex (Number outputIndex)
         (λ index,
            Service.cancelBounty C certifierPublicKey txid index now)
         "Failed to cancel bounty" in
     respond 200 (SpendId cancelTxid)
     end)
    (λ message, respond 500 (Failure "Failed to cancel bounty" (Some message))).

End Routes.

End Router.

(** * Fields of stored records *)

Module StoredFields.
Import Mongo.

(** The record has neither field the pay, cancel and refund workflows read
    back besides those [createBounty] stores. *)
Definition LacksReadBackFields (d : Doc) : Prop :=
  d !! "funderAddress" = None ∧ d !! "repoOwnerIdentityKey" = None.



End StoredFields.

(** * Reading issue identifiers *)

Module IssueForms.



End IssueForms.

(** A few runs of the model on the reference data. *)

Module DemoRuns.
#[local] Existing Instance Demo.lib.

Example demo_refund_after_deadline :
  Contract.unlock Demo.escrow Demo.refundTx Demo.refundCall = Contract.Accept.
Proof. reflexivity. Qed.

Example demo_refund_before_deadline :
  Contract.unlock Demo.escrow Demo.earlyRefundTx Demo.refundCall
  = Contract.Reject "deadline not yet reached".
Proof. reflexivity. Qed.

Example demo_create_then_observe :
  length (Mongo.docs (Mongo.bounties Demo.db1)) = 1%nat
  ∧ Demo.db2 = Demo.db1.
Proof. by vm_compute. Qed.

Example demo_refund_workflow :
  (Service.refundExpiredBounty Demo.collaborators "certifier" "t9" 0
     1700000001000 Demo.db9).1 = Mongo.Ok "spend-tx".
Proof. by vm_compute. Qed.

Example demo_refund_workflow_on_created :
  (Service.refundExpiredBounty Demo.collaborators "certifier" "deploy-tx" 0
     1700000001000 Demo.db1).1 = Mongo.Throw "Failed to refund expired bounty".
Proof. by vm_compute. Qed.

End DemoRuns.

(** * Properties of the escrow contract *)

Module ContractProofs.
Import Contract.

Section ContractFacts.
Context `{ScryptLib}.

Lemma assert_accept cond msg rest :
  assert cond msg rest = Accept ↔ cond = true ∧ rest = Accept.
Proof. unfold assert. destruct cond; intuition congruence. Qed.

Lemma assert_false cond msg rest :
  cond = false → assert cond msg rest = Reject msg.
Proof. by intros ->. Qed.

Lemma verdict_cases (v : Verdict) : v = Accept ∨ ∃ msg, v = Reject msg.
Proof. destruct v; eauto. Qed.

Lemma not_accept_reject (v : Verdict) : v ≠ Accept → ∃ msg, v = Reject msg.
Proof. destruct (verdict_cases v); [done | auto]. Qed.

Lemma paySolver_accept this ctx solverSig solverPubKey ownerSig certifierSig :
  paySolver this ctx solverSig solverPubKey ownerSig certifierSig = Accept ↔
  checkSig ctx solverSig solverPubKey = true
  ∧ checkSig ctx ownerSig (repoOwner this) = true
  ∧ checkSig ctx certifierSig (certifierPubKey this) = true
  ∧ hash256 (buildPublicKeyHashOutput (pubKey2Addr solverPubKey)
               (utxo_value ctx)) = hashOutputs ctx.
Proof.
  unfold paySolver. rewrite !assert_accept, bool_decide_eq_true. tauto.
Qed.

Lemma refundExpired_accept this ctx funderSig funderPubKey :
  refundExpired this ctx funderSig funderPubKey = Accept ↔
  pubKey2Addr funderPubKey = funderAddr this
  ∧ checkSig ctx funderSig funderPubKey = true
  ∧ timeLock ctx (deadline this) = true
  ∧ hash256 (buildPublicKeyHashOutput (funderAddr this) (utxo_value ctx))
    = hashOutputs ctx.
Proof.
  unfold refundExpired.
  rewrite !assert_accept, !bool_decide_eq_true. tauto.
Qed.

Lemma cancelBounty_accept this ctx funderSig funderPubKey ownerSig :
  cancelBounty this ctx funderSig funderPubKey ownerSig = Accept ↔
  pubKey2Addr funderPubKey = funderAddr this
  ∧ checkSig ctx funderSig funderPubKey = true
  ∧ checkSig ctx ownerSig (repoOwner this) = true
  ∧ hash256 (buildPublicKeyHashOutput (funderAddr this) (utxo_value ctx))
    = hashOutputs ctx.
Proof.
  unfold cancelBounty.
  rewrite !assert_accept, !bool_decide_eq_true. tauto.
Qed.

(** C2. [refundExpired] rejects the spend whenever the chain time is below
    the deadline, whatever signature and key are supplied; it accepts only
    when the chain time has reached the deadline, the supplied key hashes
    to [funderAddr] and the funder signature verifies against that key. *)
Theorem refundExpired_deadline_and_funder this ctx :
  TimeLockSound →
  (chainTime ctx < deadline this →
   ∀ funderSig funderPubKey,
     ∃ msg, refundExpired this ctx funderSig funderPubKey = Reject msg)
  ∧ (∀ funderSig funderPubKey,
       refundExpired this ctx funderSig funderPubKey = Accept →
       deadline this ≤ chainTime ctx
       ∧ pubKey2Addr funderPubKey = funderAddr this
       ∧ checkSig ctx funderSig funderPubKey = true).
Proof.
  intros Hsound. split.
  - intros Hearly funderSig funderPubKey. apply not_accept_reject.
    rewrite refundExpired_accept. intros (_ & _ & Hlock & _).
    apply Hsound in Hlock. lia.
  - intros funderSig funderPubKey.
    rewrite refundExpired_accept. intros (Haddr & Hsig & Hlock & _).
    auto.
Qed.

(** C3. [paySolver] rejects the spend as soon as one of the three
    signature checks fails (an absent signature being one that does not
    verify), even when the other two signatures are valid. *)
Theorem paySolver_requires_every_signature
    this ctx solverSig solverPubKey ownerSig certifierSig :
  checkSig ctx solverSig solverPubKey = false
  ∨ checkSig ctx ownerSig (repoOwner this) = false
  ∨ checkSig ctx certifierSig (certifierPubKey this) = false →
  ∃ msg,
    paySolver this ctx solverSig solverPubKey ownerSig certifierSig
    = Reject msg.
Proof.
  intros Hbad. apply not_accept_reject. rewrite paySolver_accept.
  intros (Hs & Ho & Hc & _). destruct Hbad as [Hb | [Hb | Hb]]; congruence.
Qed.

(** C4 (as amended). Each of the three transitions asserts that the hash
    of its single required payout equals [ctx.hashOutputs].  For
    [refundExpired] and [cancelBounty] (default signature-hash type) that
    hash covers the whole output list, so an accepted spend has exactly the
    bytes of the required payout as its outputs.  For [paySolver]
    ([ANYONECANPAY_SINGLE]) it covers the output at the spending input's
    index only: that output is the required payout. *)
Theorem transitions_commit_to_payout this tx mcall :
  unlock this tx mcall = Accept →
  hash256 (requiredPayout this tx mcall)
  = hashOutputs (contextOf (sigHashType mcall) tx)
  ∧ (CollisionFree →
     match mcall with
     | CallPaySolver _ _ _ _ =>
         (tx_input_index tx < length (tx_outputs tx))%nat →
         tx_outputs tx !! tx_input_index tx
         = Some (requiredPayout this tx mcall)
     | CallRefundExpired _ _ | CallCancelBounty _ _ _ =>
         serializeOutputs (tx_outputs tx) = requiredPayout this tx mcall
     end).
Proof.
  intros Hacc.
  assert (Hhash : hash256 (requiredPayout this tx mcall)
                  = hashOutputs (contextOf (sigHashType mcall) tx)).
  { destruct mcall; simpl in Hacc.
    - apply paySolver_accept in Hacc. by destruct Hacc as (_ & _ & _ & ?).
    - apply refundExpired_accept in Hacc. by destruct Hacc as (_ & _ & _ & ?).
    - apply cancelBounty_accept in Hacc. by destruct Hacc as (_ & _ & _ & ?). }
  split; [done |]. intros Hinj.
  destruct mcall; simpl in Hhash |- *.
  - intros Hlt. apply lookup_lt_is_Some_2 in Hlt as [o Ho].
    unfold hashOutputsOf in Hhash. rewrite Ho in Hhash.
    apply Hinj in Hhash. by rewrite Ho, Hhash.
  - symmetry. by apply Hinj.
  - symmetry. by apply Hinj.
Qed.

End ContractFacts.

Lemma demo_collision_free : @CollisionFree Demo.lib.
Proof. intros x y Heq. cbv [hash256 Demo.lib] in Heq. by simplify_eq/=. Qed.

Lemma demo_time_lock_sound : @TimeLockSound Demo.lib.
Proof.
  intros ctx d Hlock. cbv [timeLock chainTime Demo.lib] in *.
  apply andb_true_iff in Hlock as [_ Hle]. lia.
Qed.

Section ContractWitnesses.
#[local] Existing Instance Demo.lib.

Lemma refundExpired_deadline_and_funder_witness :
  (∃ msg, unlock Demo.escrow Demo.earlyRefundTx Demo.refundCall
          = Reject msg)
  ∧ deadline Demo.escrow
    ≤ chainTime (contextOf ALL Demo.refundTx).
Proof.
  pose proof (refundExpired_deadline_and_funder Demo.escrow
                (contextOf ALL Demo.earlyRefundTx) demo_time_lock_sound)
    as [Hearly _].
  pose proof (refundExpired_deadline_and_funder Demo.escrow
                (contextOf ALL Demo.refundTx) demo_time_lock_sound)
    as [_ Hlate].
  split.
  - apply Hearly. vm_compute. reflexivity.
  - apply (Hlate "sig(funder)" "funder"). vm_compute. reflexivity.
Defined.

Lemma paySolver_requires_every_signature_witness :
  ∃ msg,
    paySolver Demo.escrow
      (contextOf ANYONECANPAY_SINGLE Demo.payTxWithExtraOutput)
      "sig(solver)" "solver" "sig(owner)" "forged"
    = Reject msg.
Proof.
  apply (paySolver_requires_every_signature).
  right. right. vm_compute. reflexivity.
Defined.

Lemma transitions_commit_to_payout_witness :
  serializeOutputs (tx_outputs Demo.refundTx)
  = requiredPayout Demo.escrow Demo.refundTx Demo.refundCall
  ∧ tx_outputs Demo.payTxWithExtraOutput !! 0%nat
    = Some (requiredPayout Demo.escrow
              Demo.payTxWithExtraOutput Demo.payCall).
Proof.
  split.
  - refine (proj2 (transitions_commit_to_payout Demo.escrow
                     Demo.refundTx Demo.refundCall _) demo_collision_free).
    vm_compute. reflexivity.
  - refine (proj2 (transitions_commit_to_payout Demo.escrow
                     Demo.payTxWithExtraOutput Demo.payCall _)
              demo_collision_free _).
    + vm_compute. reflexivity.
    + vm_compute. lia.
Defined.

(** C4 (as stated) fails for [paySolver]: even with a collision-free
    hash, it is not the case that every accepted [paySolver] spend has the
    required payout as its only output.  With all three signatures valid
    and the required payout at the input's index, a spend carrying a
    second output to a third party is accepted. *)
Lemma paySolver_accepts_extra_output :
  ¬ (∀ (L : ScryptLib), CollisionFree →
       ∀ this tx solverSig solverPubKey ownerSig certifierSig,
         let mcall :=
           CallPaySolver solverSig solverPubKey ownerSig certifierSig in
         unlock this tx mcall = Accept →
         tx_outputs tx = [requiredPayout this tx mcall]).
Proof.
  intros Hclaim.
  specialize (Hclaim Demo.lib demo_collision_free Demo.escrow
                Demo.payTxWithExtraOutput
                "sig(solver)" "solver" "sig(owner)" "sig(certifier)").
  vm_compute in Hclaim. specialize (Hclaim eq_refl). discriminate.
Qed.

End ContractWitnesses.

End ContractProofs.


(** * Properties of the lifecycle index *)

Module IndexProofs.
Import Mongo LookupService.

Lemma setup_key_indexed : KeyIndexed setupMongoDB.
Proof. reflexivity. Qed.

Lemma matches_key txid outputIndex topic (d : Doc) :
  matches (keyFilter txid outputIndex topic) d
  = bool_decide (indexKey keyFields d = storedKey txid outputIndex topic).
Proof.
  unfold matches, keyFilter, indexKey, keyFields, storedKey. simpl.
  repeat case_bool_decide; simpl; congruence.
Qed.

Lemma activeRecord_key txid outputIndex outputScript topic now :
  indexKey keyFields (activeRecord txid outputIndex outputScript topic now)
  = storedKey txid outputIndex topic.
Proof. reflexivity. Qed.

Lemma violates_iff fields (d : Doc) ds :
  violates fields d ds = true ↔
  indexKey fields d ∈ indexKey fields <$> ds.
Proof.
  unfold violates. rewrite existsb_exists, list_elem_of_fmap.
  split.
  - intros (d' & Hin & Heq). apply bool_decide_eq_true in Heq.
    apply list_elem_of_In in Hin. eauto.
  - intros (d' & Heq & Hin). exists d'. rewrite bool_decide_eq_true.
    apply list_elem_of_In in Hin. eauto.
Qed.

Lemma violates_same_key fields (d1 d2 : Doc) ds :
  indexKey fields d1 = indexKey fields d2 →
  violates fields d1 ds = violates fields d2 ds.
Proof. unfold violates. by intros ->. Qed.

Lemma insertOne_key_indexed (d : Doc) c :
  uniqueIndexes c = [keyFields] →
  insertOne d c =
    if violates keyFields d (docs c) then None
    else Some {| docs := docs c ++ [d]; uniqueIndexes := uniqueIndexes c |}.
Proof.
  intros Hix. unfold insertOne. rewrite Hix. simpl.
  by rewrite orb_false_r.
Qed.

Lemma outputAdded_run txid outputIndex outputScript topic now db :
  outputAdded txid outputIndex outputScript topic now db =
    (Ok tt,
     match insertOne (activeRecord txid outputIndex outputScript topic now)
             (bounties db) with
     | Some c => setBounties c db
     | None => db
     end).
Proof.
  unfold outputAdded, tryCatch, bountiesInsertOne, ret.
  by destruct (insertOne _ _).
Qed.

Lemma outputSpent_run txid outputIndex topic now db :
  outputSpent txid outputIndex topic now db =
    (Ok tt,
     setBounties
       (withDocs (updateOne (keyFilter txid outputIndex topic)
                    (spentUpdate now)) (bounties db)) db).
Proof. reflexivity. Qed.

Lemma outputDeleted_run txid outputIndex topic db :
  outputDeleted txid outputIndex topic db =
    (Ok tt,
     setBounties
       (withDocs (deleteOne (keyFilter txid outputIndex topic)) (bounties db))
       db).
Proof. reflexivity. Qed.

(** ** Keys under update and delete *)

Lemma indexKey_union fields (upd d : Doc) :
  Forall (λ k, upd !! k = None) fields →
  indexKey fields (upd ∪ d) = indexKey fields d.
Proof.
  unfold indexKey. induction 1 as [| k ks Hk _ IH]; [done |].
  rewrite !fmap_cons, IH. f_equal.
  rewrite lookup_union_r; done.
Qed.

Lemma updateOne_keys fields q (upd : Doc) ds :
  Forall (λ k, upd !! k = None) fields →
  indexKey fields <$> updateOne q upd ds = indexKey fields <$> ds.
Proof.
  intros Hupd. induction ds as [| d ds IH]; [done |]. simpl.
  destruct (matches q d); rewrite !fmap_cons.
  - by rewrite indexKey_union.
  - by rewrite IH.
Qed.

Lemma deleteOne_sublist q (ds : list Doc) : sublist (deleteOne q ds) ds.
Proof.
  induction ds as [| d ds IH]; [done |]. simpl.
  destruct (matches q d).
  - by apply sublist_cons.
  - by apply sublist_skip.
Qed.

Lemma findOne_none q (ds : list Doc) :
  findOne q ds = None ↔ Forall (λ d, matches q d = false) ds.
Proof.
  induction ds as [| d ds IH]; simpl.
  - split; [constructor | done].
  - destruct (matches q d) eqn:Hm.
    + split; [done |]. intros Hall. apply Forall_cons in Hall as [? _].
      congruence.
    + rewrite IH. split; [by constructor |]. by intros [_ ?]%Forall_cons.
Qed.

Lemma filter_all_true {A} (f : A → bool) (l : list A) :
  Forall (λ x, f x = true) l → List.filter f l = l.
Proof.
  induction 1 as [| x l Hx _ IH]; [done |]. simpl. by rewrite Hx, IH.
Qed.

(** With unique keys, deleting one document by key deletes every
    document of that key. *)
Lemma deleteOne_by_key txid outputIndex topic (ds : list Doc) :
  NoDup (indexKey keyFields <$> ds) →
  deleteOne (keyFilter txid outputIndex topic) ds
  = List.filter (λ d, negb (matches (keyFilter txid outputIndex topic) d)) ds.
Proof.
  induction ds as [| d ds IH]; [done |].
  rewrite fmap_cons, NoDup_cons. intros [Hfresh Hnodup]. simpl.
  destruct (matches (keyFilter txid outputIndex topic) d) eqn:Hm; simpl.
  - symmetry. apply filter_all_true. apply Forall_forall. intros d' Hin.
    apply negb_true_iff. rewrite matches_key in Hm |- *.
    apply bool_decide_eq_true in Hm. apply bool_decide_eq_false.
    intros Hk. apply Hfresh. rewrite Hm, <- Hk.
    apply list_elem_of_fmap. eauto.
  - by rewrite IH.
Qed.

Lemma filter_not_matching q (ds : list Doc) :
  findOne q (List.filter (λ d, negb (matches q d)) ds) = None.
Proof.
  apply findOne_none, Forall_forall. intros d Hin.
  apply list_elem_of_In, filter_In in Hin as [_ Hneg].
  by apply negb_true_iff.
Qed.

(** ** The invariants of the bounties collection *)

Lemma insertOne_preserves db (d : Doc) c :
  KeyIndexed db → KeyUnique db →
  insertOne d (bounties db) = Some c →
  KeyIndexed (setBounties c db) ∧ KeyUnique (setBounties c db).
Proof.
  unfold KeyIndexed, KeyUnique. intros Hix Hnodup.
  rewrite insertOne_key_indexed by done.
  destruct (violates _ _ _) eqn:Hv; [done |]. intros [= <-]. simpl.
  split; [done |].
  rewrite fmap_app. apply NoDup_app. split_and!; [done | | apply NoDup_singleton].
  intros k Hk ->%list_elem_of_singleton.
  apply violates_iff in Hk. congruence.
Qed.

Lemma updateOne_preserves db q (upd : Doc) :
  Forall (λ k, upd !! k = None) keyFields →
  KeyIndexed db → KeyUnique db →
  KeyIndexed (setBounties (withDocs (updateOne q upd) (bounties db)) db)
  ∧ KeyUnique (setBounties (withDocs (updateOne q upd) (bounties db)) db).
Proof.
  unfold KeyIndexed, KeyUnique. intros Hupd Hix Hnodup. simpl.
  split; [done |]. by rewrite updateOne_keys.
Qed.

Lemma deleteOne_preserves db q :
  KeyIndexed db → KeyUnique db →
  KeyIndexed (setBounties (withDocs (deleteOne q) (bounties db)) db)
  ∧ KeyUnique (setBounties (withDocs (deleteOne q) (bounties db)) db).
Proof.
  unfold KeyIndexed, KeyUnique. intros Hix Hnodup. simpl.
  split; [done |].
  eapply sublist_NoDup; [done |]. apply fmap_sublist, deleteOne_sublist.
Qed.

Lemma spentUpdate_keeps_key now :
  Forall (λ k, spentUpdate now !! k = None) keyFields.
Proof. repeat constructor. Qed.

Lemma outputAdded_preserves txid outputIndex outputScript topic now db :
  KeyIndexed db → KeyUnique db →
  KeyIndexed (outputAdded txid outputIndex outputScript topic now db).2
  ∧ KeyUnique (outputAdded txid outputIndex outputScript topic now db).2.
Proof.
  intros Hix Hnodup. rewrite outputAdded_run. simpl.
  destruct (insertOne _ _) eqn:Hins; [| done].
  by eapply insertOne_preserves.
Qed.

Lemma outputSpent_preserves txid outputIndex topic now db :
  KeyIndexed db → KeyUnique db →
  KeyIndexed (outputSpent txid outputIndex topic now db).2
  ∧ KeyUnique (outputSpent txid outputIndex topic now db).2.
Proof.
  intros. rewrite outputSpent_run.
  apply updateOne_preserves; auto using spentUpdate_keeps_key.
Qed.

(** ** Reading a record back *)


Lemma updateOne_first q (upd d : Doc) ds :
  findOne q ds = Some d →
  ∃ before after,
    ds = before ++ d :: after
    ∧ Forall (λ d', matches q d' = false) before
    ∧ updateOne q upd ds = before ++ (upd ∪ d) :: after.
Proof.
  induction ds as [| d' ds IH]; [done |]. simpl.
  destruct (matches q d') eqn:Hm.
  - intros [= ->]. by exists [], ds.
  - intros (before & after & -> & Hbefore & ->)%IH.
    exists (d' :: before), after. split_and!; [done | by constructor | done].
Qed.


Lemma findOne_app_fresh q (d : Doc) ds :
  findOne q ds = None → matches q d = true → findOne q (ds ++ [d]) = Some d.
Proof.
  intros Hnone Hd. induction ds as [| d' ds IH]; simpl in *.
  - by rewrite Hd.
  - destruct (matches q d'); [done | auto].
Qed.

Lemma fresh_key_not_violated txid outputIndex topic (d : Doc) ds :
  indexKey keyFields d = storedKey txid outputIndex topic →
  findOne (keyFilter txid outputIndex topic) ds = None →
  violates keyFields d ds = false.
Proof.
  intros Hkey Hnone. apply not_true_is_false. rewrite violates_iff, Hkey.
  intros (d' & Hk & Hin)%list_elem_of_fmap.
  apply findOne_none in Hnone. rewrite Forall_forall in Hnone.
  specialize (Hnone d' Hin). rewrite matches_key in Hnone.
  apply bool_decide_eq_false in Hnone. congruence.
Qed.


(** ** The classifier *)

Lemma isBountyLockingScript_head (script : list Z) :
  TopicManager.isBountyLockingScript script = true
  ↔ script !! 0%nat = Some 0x76.
Proof.
  unfold TopicManager.isBountyLockingScript.
  rewrite andb_true_iff, !bool_decide_eq_true.
  destruct script; simpl; [intuition (lia || congruence) | intuition lia].
Qed.

(** C5 (as stated) fails: the classifier answers with one boolean, and no
    compiler and no decoder of that answer give back the parameters of
    every admitted instance. *)
Lemma classifier_recovers_no_parameters :
  ¬ ∃ (compile : Contract.BountyContract → list Z)
      (recover : bool → Contract.BountyContract),
      ∀ P, TopicManager.isBountyLockingScript (compile P) = true
           ∧ recover (TopicManager.isBountyLockingScript (compile P)) = P.
Proof.
  intros (compile & recover & Hround).
  destruct (Hround Demo.escrow) as [Ha1 Hr1].
  destruct (Hround {| Contract.funderAddr := "addr(funder)";
                      Contract.issueId := 43;
                      Contract.repoOwner := "owner";
                      Contract.certifierPubKey := "certifier";
                      Contract.deadline := 1700000000 |}) as [Ha2 Hr2].
  rewrite Ha1 in Hr1. rewrite Ha2 in Hr2. rewrite Hr1 in Hr2. discriminate.
Qed.

Lemma outputsFrom_spec k (lockingScripts : list (list Z)) (i : nat) :
  i ∈ TopicManager.outputsFrom k lockingScripts
  ↔ ∃ j script, i = (k + j)%nat ∧ lockingScripts !! j = Some script
                ∧ TopicManager.isBountyLockingScript script = true.
Proof.
  revert k. induction lockingScripts as [| s rest IH]; intros k; simpl.
  - split; [by intros ?%not_elem_of_nil | by intros (j & script & _ & ? & _)].
  - assert (Hrest : i ∈ TopicManager.outputsFrom (S k) rest
              ↔ ∃ j script, i = (k + S j)%nat ∧ rest !! j = Some script
                  ∧ TopicManager.isBountyLockingScript script = true).
    { rewrite IH. split; intros (j & script & -> & ? & ?);
        exists j, script; split_and!; auto; lia. }
    destruct (TopicManager.isBountyLockingScript s) eqn:Hs.
    + rewrite elem_of_cons, Hrest. split.
      * intros [-> | (j & script & -> & ? & ?)].
        -- exists 0%nat, s. split_and!; auto; lia.
        -- exists (S j), script. auto.
      * intros ([| j] & script & -> & Hj & Hadm); simpl in Hj.
        -- left. lia.
        -- right. eauto.
    + rewrite Hrest. split.
      * intros (j & script & -> & ? & ?). exists (S j), script. auto.
      * intros ([| j] & script & -> & Hj & Hadm); simpl in Hj.
        -- congruence.
        -- eauto.
Qed.

(** What the index holds after the observation of an output under a key
    not yet stored. *)
Lemma outputAdded_fresh txid outputIndex script topic now db :
  KeyIndexed db →
  findOne (keyFilter txid outputIndex topic) (docs (bounties db)) = None →
  docs (bounties (outputAdded txid outputIndex script topic now db).2)
  = docs (bounties db) ++ [activeRecord txid outputIndex script topic now].
Proof.
  intros Hix Hfresh. rewrite outputAdded_run. simpl.
  rewrite insertOne_key_indexed by done.
  by erewrite fresh_key_not_violated; [| apply activeRecord_key | done].
Qed.

(** C5 (as amended). For every parameter set [P], classifying the output
    of the instance yields a membership decision and nothing else: no
    decoder of that answer gives back the parameters of two different
    admitted instances.  When the output is admitted and then observed
    under a key not yet stored, the record found under that key holds the
    instance's locking script unchanged, with status [active], and has no
    field besides [txid], [outputIndex], [script], [topic], [status] and
    [createdAt]; the stored state determines the locking script, and so
    [P] as far as the script does. *)
Theorem classify_then_store_script
    (compile : Contract.BountyContract → list Z) P
    (lockingScripts : list (list Z)) previousCoins (i : nat)
    txid topic now db :
  lockingScripts !! i = Some (compile P) →
  i ∈ TopicManager.outputsToAdmit
        (TopicManager.identifyAdmissibleOutputs lockingScripts
           previousCoins) →
  KeyIndexed db →
  findOne (keyFilter txid (Z.of_nat i) topic) (docs (bounties db)) = None →
  let observe script :=
    (outputAdded txid (Z.of_nat i) script topic now db).2 in
  (∀ P' (recover : bool → Contract.BountyContract),
     P' ≠ P →
     TopicManager.isBountyLockingScript (compile P') = true →
     ¬ (recover (TopicManager.isBountyLockingScript (compile P)) = P
        ∧ recover (TopicManager.isBountyLockingScript (compile P')) = P'))
  ∧ (∃ record : Doc,
       findOne (keyFilter txid (Z.of_nat i) topic)
         (docs (bounties (observe (compile P)))) = Some record
       ∧ record !! "script" = Some (VArr (compile P))
       ∧ record !! "status" = Some (VStr "active")
       ∧ ∀ field,
           field ∉ ["txid"; "outputIndex"; "script"; "topic"; "status";
                    "createdAt"] →
           record !! field = None)
  ∧ (∀ P', observe (compile P') = observe (compile P) →
           compile P' = compile P).
Proof.
  intros Hout Hadm Hix Hfresh observe.
  assert (Hclass : TopicManager.isBountyLockingScript (compile P) = true).
  { simpl in Hadm. apply outputsFrom_spec in Hadm
      as (j & script & -> & Hj & Hscript).
    simpl in Hout. congruence. }
  split_and!.
  - intros P' recover Hne Hclass' [HP HP'].
    rewrite Hclass in HP. rewrite Hclass' in HP'. congruence.
  - exists (activeRecord txid (Z.of_nat i) (compile P) topic now).
    split_and!; [| reflexivity | reflexivity |].
    + unfold observe. rewrite outputAdded_fresh by done.
      apply findOne_app_fresh; [done |].
      rewrite matches_key. by apply bool_decide_eq_true.
    + intros field Hfield. unfold activeRecord.
      rewrite !lookup_insert_ne; [done | intros <-; apply Hfield; set_solver ..].
  - intros P' Hsame. unfold observe in Hsame.
    apply (f_equal (λ db, docs (bounties db))) in Hsame.
    rewrite !outputAdded_fresh in Hsame by done.
    apply app_inj_tail in Hsame as [_ Hrecord].
    apply (f_equal (λ d : Doc, d !! "script")) in Hrecord.
    by injection Hrecord.
Qed.

Lemma classify_then_store_script_witness :
  ∃ record : Doc,
    findOne (keyFilter "t1" 0 "tm_bounty")
      (docs (bounties
               (outputAdded "t1" 0
                  (Service.lockingScript Demo.collaborators Demo.escrow)
                  "tm_bounty" 1697408000500 Demo.db0).2))
    = Some record
    ∧ record !! "script" = Some (VArr [0x76; 42; 1700000000])
    ∧ record !! "issueId" = None.
Proof.
  destruct (classify_then_store_script
              (Service.lockingScript Demo.collaborators) Demo.escrow
              [Service.lockingScript Demo.collaborators Demo.escrow] []
              0%nat "t1" "tm_bounty" 1697408000500 Demo.db0)
    as (_ & (record & Hstored & Hscript & _ & Hfields) & _).
  - reflexivity.
  - apply list_elem_of_here.
  - reflexivity.
  - reflexivity.
  - exists record. split_and!; [exact Hstored | exact Hscript |].
    apply Hfields. intros Hin.
    repeat (apply elem_of_cons in Hin as [Hin | Hin]; [discriminate Hin |]).
    by apply not_elem_of_nil in Hin.
Defined.

(** ** The three observation handlers *)

(** C6. Observing an output that is already stored under the same
    [(txid, outputIndex, topic)] is not an error and changes nothing: the
    second [outputAdded] returns normally and leaves the database, hence
    the record count and every field of every record, as the first call
    left it. *)
Theorem outputAdded_idempotent
    txid outputIndex topic script1 now1 script2 now2 db :
  KeyIndexed db →
  outputAdded txid outputIndex script2 topic now2
    (outputAdded txid outputIndex script1 topic now1 db).2
  = (Ok tt, (outputAdded txid outputIndex script1 topic now1 db).2).
Proof.
  intros Hix. rewrite !outputAdded_run. simpl. f_equal.
  assert (Hsame : indexKey keyFields
                    (activeRecord txid outputIndex script1 topic now1)
                  = indexKey keyFields
                      (activeRecord txid outputIndex script2 topic now2))
    by reflexivity.
  rewrite (insertOne_key_indexed _ (bounties db)) by done.
  destruct (violates keyFields (activeRecord _ _ script1 _ _) _) eqn:Hv.
  - rewrite insertOne_key_indexed by done.
    by rewrite <- (violates_same_key _ _ _ _ Hsame), Hv.
  - rewrite insertOne_key_indexed by done. simpl.
    replace (violates keyFields _ _) with true; [done |].
    symmetry. apply violates_iff. rewrite fmap_app, <- Hsame.
    apply elem_of_app. right. by apply list_elem_of_singleton.
Qed.

Lemma outputAdded_idempotent_witness :
  outputAdded "t1" 0 [0x76; 1] "tm_bounty" 20
    (outputAdded "t1" 0 [0x76; 1] "tm_bounty" 10 Demo.db0).2
  = (Ok tt, (outputAdded "t1" 0 [0x76; 1] "tm_bounty" 10 Demo.db0).2)
  ∧ length (docs (bounties
                    (outputAdded "t1" 0 [0x76; 1] "tm_bounty" 10 Demo.db0).2))
    = 1%nat.
Proof.
  split.
  - apply (outputAdded_idempotent "t1" 0 "tm_bounty" [0x76; 1] 10
             [0x76; 1] 20 Demo.db0).
    reflexivity.
  - reflexivity.
Defined.

(** C7. [outputDeleted] removes the record stored under
    [(txid, outputIndex, topic)] whatever its status, and only that
    record; in particular after [outputAdded] and [outputSpent] for a key,
    [outputDeleted] leaves no record under it. *)
Theorem outputDeleted_unconditional txid outputIndex topic db :
  KeyIndexed db → KeyUnique db →
  (docs (bounties (outputDeleted txid outputIndex topic db).2)
   = List.filter
       (λ d, negb (matches (keyFilter txid outputIndex topic) d))
       (docs (bounties db))
   ∧ findOne (keyFilter txid outputIndex topic)
       (docs (bounties (outputDeleted txid outputIndex topic db).2)) = None)
  ∧ ∀ script now1 now2,
      findOne (keyFilter txid outputIndex topic)
        (docs (bounties
           (outputDeleted txid outputIndex topic
              (outputSpent txid outputIndex topic now2
                 (outputAdded txid outputIndex script topic now1 db).2).2).2))
      = None.
Proof.
  assert (Hdel : ∀ db', KeyUnique db' →
    docs (bounties (outputDeleted txid outputIndex topic db').2)
    = List.filter
        (λ d, negb (matches (keyFilter txid outputIndex topic) d))
        (docs (bounties db'))).
  { intros db' Hnodup. rewrite outputDeleted_run. simpl.
    by apply deleteOne_by_key. }
  intros Hix Hnodup. split.
  - rewrite Hdel by done. split; [done |]. apply filter_not_matching.
  - intros script now1 now2.
    destruct (outputAdded_preserves txid outputIndex script topic now1 db)
      as [Hix1 Hnodup1]; [done.. |].
    destruct (outputSpent_preserves txid outputIndex topic now2
                (outputAdded txid outputIndex script topic now1 db).2)
      as [_ Hnodup2]; [done.. |].
    rewrite Hdel by done. apply filter_not_matching.
Qed.

Lemma outputDeleted_unconditional_witness :
  findOne (keyFilter "t9" 0 "tm_bounty")
    (docs (bounties (outputDeleted "t9" 0 "tm_bounty" Demo.dbTerminal).2))
  = None
  ∧ length
      (docs (bounties (outputDeleted "t9" 0 "tm_bounty" Demo.dbTerminal).2))
    = 1%nat.
Proof.
  destruct (outputDeleted_unconditional "t9" 0 "tm_bounty" Demo.dbTerminal)
    as [[_ Hgone] _].
  - reflexivity.
  - unfold KeyUnique. vm_compute.
    apply NoDup_cons. split; [| apply NoDup_singleton].
    intros Hin%list_elem_of_singleton. discriminate.
  - split; [exact Hgone | reflexivity].
Defined.

(** ** The query resolver *)

Lemma truthy_nonempty u : u ≠ "" → truthy (Some u) = true.
Proof.
  intros Hne. unfold truthy. apply negb_true_iff, String.eqb_neq. done.
Qed.

Lemma lookup_by_username query u db :
  q_githubUsername query = Some u → u ≠ "" →
  lookup (Some query) db =
    match resolve u (githubIdentities db) with
    | None => (Ok (OutputList []), db)
    | Some identity =>
        (Ok (Formula
               (toFormula
                  (find (baseQuery query
                           ++ [("identityKey", VStr (identityKey identity))])
                     (docs (bounties db))))), db)
    end.
Proof.
  intros Hq Hne. unfold lookup. simpl. rewrite Hq.
  rewrite (truthy_nonempty u Hne).
  unfold bind, identitiesFindOne.
  by destruct (resolve u (githubIdentities db)).
Qed.

End IndexProofs.

(** * Properties of the workflows *)

Module ServiceProofs.
Import Mongo Service.

Section WorkflowFacts.
Context `{Contract.ScryptLib}.
Variable C : Collaborators.
Variable certifierPublicKey : string.

Lemma callMethod_ok instance utxo mcall id :
  callMethod C instance utxo mcall = Ok id →
  SpendSucceeded C instance utxo mcall id.
Proof.
  unfold callMethod, SpendSucceeded.
  destruct (Contract.unlock _ _ _); [done | discriminate].
Qed.

Lemma active_status (bounty : Doc) :
  notActive bounty = false → bounty !! "status" = Some (VStr "active").
Proof. unfold notActive. by intros ?%bool_decide_eq_false%dec_stable. Qed.

(** Runs a workflow body step by step: every step either throws, which
    ends the run with the database as it was, or hands on a value. *)
Ltac run_body Hbody :=
  unfold bind, call, throw, ret, bountiesFindOne, bountiesUpdateOne,
    bountiesInsertOne, getGitHubIdentityByUsername in Hbody;
  repeat first
    [ discriminate Hbody
    | match type of Hbody with
      | context [match ?x with _ => _ end] => destruct x eqn:?
      | context [if ?b then _ else _] => destruct b eqn:?
      end ];
  repeat match goal with
         | Hstep : match ?x with _ => _ end = _ |- _ => destruct x eqn:?
         end;
  simplify_eq.

Lemma payBounty_outcome txid outputIndex solver pr now db r db' :
  payBounty C certifierPublicKey txid outputIndex solver pr now db = (r, db') →
  (r = Throw "Failed to pay bounty" ∧ db' = db)
  ∨ ∃ bounty solverIdentity instance mcall id,
      r = Ok id
      ∧ findOne (txFilter txid outputIndex) (docs (bounties db)) = Some bounty
      ∧ bounty !! "status" = Some (VStr "active")
      ∧ resolve solver (githubIdentities db) = Some solverIdentity
      ∧ is_Some (resolveValue (bounty !! "repoOwner") (githubIdentities db))
      ∧ SpendSucceeded C instance (utxoOf txid outputIndex bounty) mcall id
      ∧ db' = setBounties
                (withDocs (updateOne (txFilter txid outputIndex)
                             (payUpdate (identityKey solverIdentity) pr now))
                   (bounties db)) db.
Proof.
  unfold payBounty, tryCatch.
  match goal with |- context [match ?body db with _ => _ end] =>
    destruct (body db) as [[id | e] db1] eqn:Hbody end;
    intros [= <- <-]; run_body Hbody; auto.
  right. eexists _, _, _, _, _. split_and!; eauto using callMethod_ok.
  by apply active_status.
Qed.

Lemma refundExpiredBounty_outcome txid outputIndex now db r db' :
  refundExpiredBounty C certifierPublicKey txid outputIndex now db = (r, db') →
  (r = Throw "Failed to refund expired bounty" ∧ db' = db)
  ∨ ∃ bounty instance mcall id,
      r = Ok id
      ∧ findOne (txFilter txid outputIndex) (docs (bounties db)) = Some bounty
      ∧ bounty !! "status" = Some (VStr "active")
      ∧ beforeDeadline C now (bounty !! "deadline") = false
      ∧ SpendSucceeded C instance (utxoOf txid outputIndex bounty) mcall id
      ∧ db' = setBounties
                (withDocs (updateOne (txFilter txid outputIndex)
                             (refundUpdate now)) (bounties db)) db.
Proof.
  unfold refundExpiredBounty, tryCatch.
  match goal with |- context [match ?body db with _ => _ end] =>
    destruct (body db) as [[id | e] db1] eqn:Hbody end;
    intros [= <- <-]; run_body Hbody; auto.
  right. eexists _, _, _, _. split_and!; eauto using callMethod_ok.
  by apply active_status.
Qed.

Lemma cancelBounty_outcome txid outputIndex now db r db' :
  cancelBounty C certifierPublicKey txid outputIndex now db = (r, db') →
  (r = Throw "Failed to cancel bounty" ∧ db' = db)
  ∨ ∃ bounty instance mcall id,
      r = Ok id
      ∧ findOne (txFilter txid outputIndex) (docs (bounties db)) = Some bounty
      ∧ bounty !! "status" = Some (VStr "active")
      ∧ is_Some (resolveValue (bounty !! "repoOwner") (githubIdentities db))
      ∧ SpendSucceeded C instance (utxoOf txid outputIndex bounty) mcall id
      ∧ db' = setBounties
                (withDocs (updateOne (txFilter txid outputIndex)
                             (cancelUpdate now)) (bounties db)) db.
Proof.
  unfold cancelBounty, tryCatch.
  match goal with |- context [match ?body db with _ => _ end] =>
    destruct (body db) as [[id | e] db1] eqn:Hbody end;
    intros [= <- <-]; run_body Hbody; auto.
  right. eexists _, _, _, _. split_and!; eauto using callMethod_ok.
  by apply active_status.
Qed.

Lemma createBounty_outcome issueId repoOwner ownerUsername amount days now
    later db r db' :
  createBounty C certifierPublicKey issueId repoOwner ownerUsername amount
    days now later db = (r, db') →
  (r = Throw "Failed to create bounty" ∧ db' = db)
  ∨ ∃ (bountyDoc : Doc) c txid,
      r = Ok (txid, 0)
      ∧ insertOne bountyDoc (bounties db) = Some c
      ∧ bountyDoc !! "identityKey" = None
      ∧ bountyDoc !! "status" = Some (VStr "active")
      ∧ db' = setBounties c db.
Proof.
  unfold createBounty, tryCatch.
  match goal with |- context [match ?body db with _ => _ end] =>
    destruct (body db) as [[id | e] db1] eqn:Hbody end;
    intros [= <- <-]; run_body Hbody; auto.
  right. eexists _, _, _. split_and!; eauto; reflexivity.
Qed.

(** Settles a run from its outcome lemma when success is impossible. *)
Ltac must_throw outcome :=
  unfold throwsUnchanged;
  match goal with
  | |- ?m ?db = _ =>
      let Hrun := fresh "Hrun" in
      destruct (m db) as [? ?] eqn:Hrun;
      apply outcome in Hrun;
      destruct Hrun as [[-> ->] | Hok]; [reflexivity | exfalso]
  end.

(** C9. Each of [payBounty], [refundExpiredBounty] and [cancelBounty]
    either throws its error and leaves the database as it found it, or
    returns the id of a spend that the contract accepted and the ledger
    took, having written the terminal status after that.  In particular a
    missing or non-active record, an unregistered solver or repository
    owner, a deadline still ahead, and a spend the contract rejects all
    end in the error with the stored record unchanged. *)
Theorem workflows_atomic txid outputIndex now db :
  let found := findOne (txFilter txid outputIndex) (docs (bounties db)) in
  let pay := λ solver pr,
    payBounty C certifierPublicKey txid outputIndex solver pr now in
  let refund :=
    refundExpiredBounty C certifierPublicKey txid outputIndex now in
  let cancel := cancelBounty C certifierPublicKey txid outputIndex now in
  ((∀ solver pr r db', pay solver pr db = (r, db') →
      (r = Throw "Failed to pay bounty" ∧ db' = db)
      ∨ ∃ id solverIdentity,
          r = Ok id
          ∧ Committed C txid outputIndex
              (payUpdate (identityKey solverIdentity) pr now) db db' id)
   ∧ (∀ r db', refund db = (r, db') →
      (r = Throw "Failed to refund expired bounty" ∧ db' = db)
      ∨ ∃ id, r = Ok id
              ∧ Committed C txid outputIndex (refundUpdate now) db db' id)
   ∧ (∀ r db', cancel db = (r, db') →
      (r = Throw "Failed to cancel bounty" ∧ db' = db)
      ∨ ∃ id, r = Ok id
              ∧ Committed C txid outputIndex (cancelUpdate now) db db' id))
  ∧ ((found = None
      ∨ (∃ bounty, found = Some bounty
                   ∧ bounty !! "status" ≠ Some (VStr "active"))
      ∨ (∃ bounty, found = Some bounty
                   ∧ resolveValue (bounty !! "repoOwner")
                       (githubIdentities db) = None)
      ∨ (∀ instance utxo mcall,
           Contract.unlock instance (buildCallTx C instance utxo mcall) mcall
           ≠ Contract.Accept) →
      (∀ solver pr,
         throwsUnchanged (pay solver pr) "Failed to pay bounty" db)
      ∧ throwsUnchanged cancel "Failed to cancel bounty" db)
     ∧ (found = None
        ∨ (∃ bounty, found = Some bounty
                     ∧ bounty !! "status" ≠ Some (VStr "active"))
        ∨ (∃ bounty ms, found = Some bounty
                        ∧ bounty !! "deadline" = Some (VDate ms) ∧ now < ms)
        ∨ (∀ instance utxo mcall,
             Contract.unlock instance (buildCallTx C instance utxo mcall)
               mcall ≠ Contract.Accept) →
        throwsUnchanged refund "Failed to refund expired bounty" db)
     ∧ (∀ solver pr,
          resolve solver (githubIdentities db) = None →
          throwsUnchanged (pay solver pr) "Failed to pay bounty" db)).
Proof.
  intros found pay refund cancel. subst found pay refund cancel.
  split; [split_and! | split_and!].
  - intros solver pr r db' Hrun. apply payBounty_outcome in Hrun
      as [? | (b & si & inst & mc & id & -> & ? & _ & _ & _ & ? & ->)];
      [by left | right].
    exists id, si. split; [done |]. by exists b, inst, mc.
  - intros r db' Hrun. apply refundExpiredBounty_outcome in Hrun
      as [? | (b & inst & mc & id & -> & ? & _ & _ & ? & ->)];
      [by left | right].
    exists id. split; [done |]. by exists b, inst, mc.
  - intros r db' Hrun. apply cancelBounty_outcome in Hrun
      as [? | (b & inst & mc & id & -> & ? & _ & _ & ? & ->)];
      [by left | right].
    exists id. split; [done |]. by exists b, inst, mc.
  - intros Hcause. split; [intros solver pr |].
    + must_throw payBounty_outcome.
      destruct Hok as (b & si & inst & mc & id & _ & Hf & Hact & _ & Hown
                       & [Hacc _] & _).
      destruct Hcause as [Hc | [(b' & Hc & Hs) | [(b' & Hc & Hs) | Hrej]]];
        [congruence | congruence | | by eapply Hrej].
      rewrite Hf in Hc. injection Hc as <-. rewrite Hs in Hown.
      by destruct Hown.
    + must_throw cancelBounty_outcome.
      destruct Hok as (b & inst & mc & id & _ & Hf & Hact & Hown
                       & [Hacc _] & _).
      destruct Hcause as [Hc | [(b' & Hc & Hs) | [(b' & Hc & Hs) | Hrej]]];
        [congruence | congruence | | by eapply Hrej].
      rewrite Hf in Hc. injection Hc as <-. rewrite Hs in Hown.
      by destruct Hown.
  - intros Hcause. must_throw refundExpiredBounty_outcome.
    destruct Hok as (b & inst & mc & id & _ & Hf & Hact & Hdl
                     & [Hacc _] & _).
    destruct Hcause as [Hc | [(b' & Hc & Hs) | [(b' & ms & Hc & Hd & Hlt)
                                               | Hrej]]];
      [congruence | congruence | | by eapply Hrej].
    rewrite Hf in Hc. injection Hc as <-. rewrite Hd in Hdl. simpl in Hdl.
    apply Z.ltb_ge in Hdl. lia.
  - intros solver pr Hnone. must_throw payBounty_outcome.
    destruct Hok as (b & si & inst & mc & id & _ & _ & _ & Hsolver & _).
    congruence.
Qed.

End WorkflowFacts.


(** ** Invariants of produced stores *)

Section Invariants.
Import Lifecycle.

Lemma insertOne_some (d : Doc) c c' :
  insertOne d c = Some c' → docs c' = docs c ++ [d].
Proof.
  unfold insertOne. destruct (existsb _ _); [done |]. by intros [= <-].
Qed.

Lemma consistent_insert db (d : Doc) c :
  Consistent db → insertOne d (bounties db) = Some c →
  d !! "identityKey" = None → Consistent (setBounties c db).
Proof.
  intros (Hix & Hnodup & Hnokey) Hins Hd.
  destruct (IndexProofs.insertOne_preserves db d c) as [? ?]; [done.. |].
  split_and!; [done.. |]. unfold NoIdentityKey. simpl.
  rewrite (insertOne_some _ _ _ Hins). apply Forall_app. split; [done |].
  by apply Forall_singleton.
Qed.

Lemma consistent_update db q (upd : Doc) :
  Forall (λ k, upd !! k = None) keyFields →
  upd !! "identityKey" = None →
  Consistent db →
  Consistent (setBounties (withDocs (updateOne q upd) (bounties db)) db).
Proof.
  intros Hkeys Hupd (Hix & Hnodup & Hnokey).
  destruct (IndexProofs.updateOne_preserves db q upd) as [? ?]; [done.. |].
  split_and!; [done.. |]. unfold NoIdentityKey in *. simpl.
  induction (docs (bounties db)) as [| d ds IH]; [done |].
  apply Forall_cons in Hnokey as [Hd Hds]. simpl.
  destruct (matches q d); constructor; auto.
  by rewrite lookup_union_r.
Qed.

Lemma consistent_delete db q :
  Consistent db →
  Consistent (setBounties (withDocs (deleteOne q) (bounties db)) db).
Proof.
  intros (Hix & Hnodup & Hnokey).
  destruct (IndexProofs.deleteOne_preserves db q) as [? ?]; [done.. |].
  split_and!; [done.. |]. unfold NoIdentityKey in *. simpl.
  rewrite Forall_forall in Hnokey |- *. intros d Hd. apply Hnokey.
  eapply elem_of_sublist; [done | apply IndexProofs.deleteOne_sublist].
Qed.

Lemma produced_consistent db : Produced db → Consistent db.
Proof.
  induction 1 as
    [ | db ids _ IH
      | db txid i script topic now _ IH
      | db txid i topic now _ IH
      | db txid i topic _ IH
      | db C cert issue owner user amount days now later _ IH
      | db L C cert txid i solver pr now _ IH
      | db L C cert txid i now _ IH
      | db L C cert txid i now _ IH ].
  - split_and!; [reflexivity | apply NoDup_nil_2 | constructor].
  - exact IH.
  - rewrite IndexProofs.outputAdded_run. simpl.
    destruct (insertOne _ _) eqn:Hins; [| done].
    by eapply consistent_insert.
  - rewrite IndexProofs.outputSpent_run.
    apply consistent_update; [repeat constructor | done | done].
  - rewrite IndexProofs.outputDeleted_run. by apply consistent_delete.
  - destruct (createBounty _ _ _ _ _ _ _ _ _ db) as [r db'] eqn:Hrun.
    apply createBounty_outcome in Hrun
      as [[_ ->] | (d & c & t & _ & Hins & Hd & _ & ->)]; [done |].
    by eapply consistent_insert.
  - destruct (payBounty _ _ _ _ _ _ _ db) as [r db'] eqn:Hrun.
    apply payBounty_outcome in Hrun
      as [[_ ->] | (? & ? & ? & ? & ? & _ & _ & _ & _ & _ & _ & ->)];
      [done |].
    apply consistent_update; [repeat constructor | done | done].
  - destruct (refundExpiredBounty _ _ _ _ _ db) as [r db'] eqn:Hrun.
    apply refundExpiredBounty_outcome in Hrun
      as [[_ ->] | (? & ? & ? & ? & _ & _ & _ & _ & _ & ->)]; [done |].
    apply consistent_update; [repeat constructor | done | done].
  - destruct (cancelBounty _ _ _ _ _ db) as [r db'] eqn:Hrun.
    apply cancelBounty_outcome in Hrun
      as [[_ ->] | (? & ? & ? & ? & _ & _ & _ & _ & _ & ->)]; [done |].
    apply consistent_update; [repeat constructor | done | done].
Qed.

Lemma find_identityKey_nothing (q : Filter) key (ds : list Doc) :
  Forall (λ d : Doc, d !! "identityKey" = None) ds →
  find (q ++ [("identityKey", VStr key)]) ds = [].
Proof.
  unfold find. induction 1 as [| d ds Hd _ IH]; [done |]. simpl.
  replace (matches _ d) with false; [done |].
  symmetry. unfold matches. rewrite forallb_app. simpl.
  rewrite Hd. rewrite bool_decide_eq_false_2 by done.
  apply andb_false_r.
Qed.

End Invariants.

Section WorkflowWitnesses.
#[local] Existing Instance Demo.lib.

Lemma workflows_atomic_witness :
  throwsUnchanged
    (refundExpiredBounty Demo.collaborators "certifier" "t9" 0 1699999999000)
    "Failed to refund expired bounty" Demo.db9
  ∧ throwsUnchanged
      (payBounty Demo.collaborators "certifier" "t9" 0 "mallory" "pr-7"
         1699999999000)
      "Failed to pay bounty" Demo.db9
  ∧ ∃ id, Committed Demo.collaborators "t9" 0 (refundUpdate 1700000001000)
            Demo.db9
            (refundExpiredBounty Demo.collaborators "certifier" "t9" 0
               1700000001000 Demo.db9).2 id.
Proof.
  pose proof (workflows_atomic Demo.collaborators "certifier" "t9" 0
                1699999999000 Demo.db9) as (_ & _ & Hrefund & Hpay).
  pose proof (workflows_atomic Demo.collaborators "certifier" "t9" 0
                1700000001000 Demo.db9) as ((_ & Hlate & _) & _).
  split_and!.
  - apply Hrefund. right. right. left.
    exists Demo.fullRecord, 1700000000000.
    split_and!; [reflexivity | reflexivity | lia].
  - apply Hpay. reflexivity.
  - destruct (Hlate (Ok "spend-tx")
                (refundExpiredBounty Demo.collaborators "certifier" "t9" 0
                   1700000001000 Demo.db9).2)
      as [[Hthrow _] | (id & _ & Hcommitted)].
    + by vm_compute.
    + discriminate Hthrow.
    + by exists id.
Defined.

End WorkflowWitnesses.

(** C10. No writer of the bounties collection sets the [identityKey]
    field the username filter matches on ([createBounty] stores the
    funder's key as [funderIdentityKey], [outputAdded] stores no identity
    at all), so over any store the code produces, a lookup by a registered
    GitHub username returns the empty list. *)
Theorem username_lookup_finds_nothing db query u identity :
  Lifecycle.Produced db →
  LookupService.q_githubUsername query = Some u → u ≠ "" →
  resolve u (githubIdentities db) = Some identity →
  Lifecycle.NoIdentityKey db
  ∧ LookupService.lookup (Some query) db
    = (Ok (LookupService.Formula []), db).
Proof.
  intros Hprod Hq Hne Hid.
  destruct (produced_consistent db Hprod) as (_ & _ & Hnokey).
  split; [done |].
  rewrite (IndexProofs.lookup_by_username query u db Hq Hne), Hid.
  by rewrite find_identityKey_nothing.
Qed.

Lemma demo_db1_produced : Lifecycle.Produced Demo.db1.
Proof.
  apply Lifecycle.produced_createBounty.
  apply (Lifecycle.produced_identities setupMongoDB).
  apply Lifecycle.produced_setup.
Qed.

Lemma username_lookup_finds_nothing_witness :
  (∃ record, docs (bounties Demo.db1) = [record]
             ∧ record !! "funderIdentityKey" = Some (VStr "funder"))
  ∧ LookupService.lookup
      (Some {| LookupService.q_issueId := None;
               LookupService.q_repoOwner := None;
               LookupService.q_githubUsername := Some "carol";
               LookupService.q_status := None |}) Demo.db1
    = (Ok (LookupService.Formula []), Demo.db1).
Proof.
  split.
  - eexists. split; reflexivity.
  - refine (proj2 (username_lookup_finds_nothing Demo.db1 _ "carol"
                     (Demo.identityOf "carol" "funder")
                     demo_db1_produced _ _ _)).
    + reflexivity.
    + discriminate.
    + reflexivity.
Defined.

End ServiceProofs.

(** * Further properties of the escrow contract *)

Module ContractExtras.
Import Contract.

Section TransitionFacts.
Context `{ScryptLib}.

(** X1. Cancellation is the refund with the owner's consent in place of
    the time lock: in one and the same context, an accepted refund whose
    owner signature verifies is an accepted cancellation, an accepted
    cancellation whose time lock holds is an accepted refund, and a
    cancellation without a valid owner signature is always rejected. *)
Theorem cancel_is_refund_with_owner_consent
    this ctx funderSig funderPubKey ownerSig :
  (refundExpired this ctx funderSig funderPubKey = Accept →
   checkSig ctx ownerSig (repoOwner this) = true →
   cancelBounty this ctx funderSig funderPubKey ownerSig = Accept)
  ∧ (cancelBounty this ctx funderSig funderPubKey ownerSig = Accept →
     timeLock ctx (deadline this) = true →
     refundExpired this ctx funderSig funderPubKey = Accept)
  ∧ (checkSig ctx ownerSig (repoOwner this) = false →
     ∃ msg,
       cancelBounty this ctx funderSig funderPubKey ownerSig = Reject msg).
Proof.
  rewrite ContractProofs.refundExpired_accept.
  rewrite ContractProofs.cancelBounty_accept.
  split_and!.
  - tauto.
  - tauto.
  - intros Hbad. apply ContractProofs.not_accept_reject.
    rewrite ContractProofs.cancelBounty_accept. intros (_ & _ & Hown & _).
    congruence.
Qed.

End TransitionFacts.

(** X2. The payout and the cancellation never consult the time lock.
    Under two script libraries that agree on signature checks, hashing,
    address derivation and output building, however they answer the time
    lock, every payout and every cancellation gets the same verdict: both
    stay possible after the deadline.  The verdict on a refund is the same
    as soon as the two libraries also agree on the time lock of that
    spend. *)
Theorem payout_and_cancel_ignore_time_lock (L1 L2 : ScryptLib)
    this tx mcall :
  (∀ ctx sig pk, @checkSig L1 ctx sig pk = @checkSig L2 ctx sig pk) →
  (∀ x, @hash256 L1 x = @hash256 L2 x) →
  (∀ pk, @pubKey2Addr L1 pk = @pubKey2Addr L2 pk) →
  (∀ addr amount,
     @buildPublicKeyHashOutput L1 addr amount
     = @buildPublicKeyHashOutput L2 addr amount) →
  match mcall with
  | CallRefundExpired _ _ =>
      @timeLock L1 (@contextOf L1 ALL tx) (deadline this)
      = @timeLock L2 (@contextOf L2 ALL tx) (deadline this) →
      @unlock L1 this tx mcall = @unlock L2 this tx mcall
  | _ => @unlock L1 this tx mcall = @unlock L2 this tx mcall
  end.
Proof.
  intros Hsig Hhash Haddr Hout.
  assert (Hctx : ∀ sh, @contextOf L1 sh tx = @contextOf L2 sh tx).
  { intros sh. unfold contextOf, hashOutputsOf. f_equal.
    destruct sh; rewrite ?Hhash; try done;
      by destruct (tx_outputs tx !! tx_input_index tx); rewrite ?Hhash. }
  destruct mcall; [| intros Htime |];
    unfold unlock, paySolver, refundExpired, cancelBounty, sigHashType;
    rewrite ?Htime, !Hctx, ?Hsig, ?Haddr, ?Hout, ?Hhash; done.
Qed.

Section TransitionWitnesses.
#[local] Existing Instance Demo.lib.

Lemma cancel_is_refund_with_owner_consent_witness :
  cancelBounty Demo.escrow (contextOf ALL Demo.refundTx)
    "sig(funder)" "funder" "sig(owner)" = Accept
  ∧ ∃ msg,
      cancelBounty Demo.escrow (contextOf ALL Demo.refundTx)
        "sig(funder)" "funder" "sig(mallory)" = Reject msg.
Proof.
  pose proof (cancel_is_refund_with_owner_consent Demo.escrow
                (contextOf ALL Demo.refundTx) "sig(funder)" "funder"
                "sig(owner)") as (Hfwd & _ & _).
  pose proof (cancel_is_refund_with_owner_consent Demo.escrow
                (contextOf ALL Demo.refundTx) "sig(funder)" "funder"
                "sig(mallory)") as (_ & _ & Hbad).
  split.
  - apply Hfwd; vm_compute; reflexivity.
  - apply Hbad. vm_compute. reflexivity.
Defined.

Lemma payout_and_cancel_ignore_time_lock_witness :
  @unlock Demo.earlyLib Demo.escrow Demo.payTxWithExtraOutput Demo.payCall
  = Accept.
Proof.
  etrans.
  - symmetry.
    apply (payout_and_cancel_ignore_time_lock Demo.lib Demo.earlyLib
             Demo.escrow Demo.payTxWithExtraOutput Demo.payCall);
      reflexivity.
  - reflexivity.
Defined.

End TransitionWitnesses.

End ContractExtras.

(** * Further properties of the lifecycle index *)

Module IndexExtras.
Import Mongo LookupService QueryForms.

Lemma setBounties_docs db ds :
  ds = docs (bounties db) →
  setBounties {| docs := ds; uniqueIndexes := uniqueIndexes (bounties db) |} db
  = db.
Proof. intros ->. by destruct db as [[] ?]. Qed.

Lemma updateOne_absent q (upd : Doc) ds :
  findOne q ds = None → updateOne q upd ds = ds.
Proof.
  induction ds as [| d ds IH]; [done |]. simpl.
  destruct (matches q d); [done |]. intros Hnone. by rewrite IH.
Qed.

Lemma deleteOne_absent q (ds : list Doc) :
  findOne q ds = None → deleteOne q ds = ds.
Proof.
  induction ds as [| d ds IH]; [done |]. simpl.
  destruct (matches q d); [done |]. intros Hnone. by rewrite IH.
Qed.

Lemma absent_key_runs txid outputIndex topic now db :
  findOne (keyFilter txid outputIndex topic) (docs (bounties db)) = None →
  outputSpent txid outputIndex topic now db = (Ok tt, db)
  ∧ outputDeleted txid outputIndex topic db = (Ok tt, db).
Proof.
  intros Hnone.
  rewrite IndexProofs.outputSpent_run, IndexProofs.outputDeleted_run.
  unfold withDocs.
  rewrite (updateOne_absent _ _ _ Hnone), (deleteOne_absent _ _ Hnone).
  by rewrite setBounties_docs.
Qed.

(** X3. A spend or a deletion observed for a key under which nothing is
    stored is absorbed: the handler returns normally and the database is
    exactly as before (no record is created for it). *)
Theorem observations_of_absent_key txid outputIndex topic now db :
  findOne (keyFilter txid outputIndex topic) (docs (bounties db)) = None →
  outputSpent txid outputIndex topic now db = (Ok tt, db)
  ∧ outputDeleted txid outputIndex topic db = (Ok tt, db).
Proof. apply absent_key_runs. Qed.

Lemma observations_of_absent_key_witness :
  outputSpent "nowhere" 3 "tm_bounty" 5 Demo.db1 = (Ok tt, Demo.db1)
  ∧ outputDeleted "nowhere" 3 "tm_bounty" Demo.db1 = (Ok tt, Demo.db1).
Proof.
  apply (observations_of_absent_key "nowhere" 3 "tm_bounty" 5 Demo.db1).
  reflexivity.
Defined.

(** With unique keys, updating one document by key updates every document
    of that key. *)
Lemma updateOne_by_key txid outputIndex topic (upd : Doc) (ds : list Doc) :
  NoDup (indexKey keyFields <$> ds) →
  updateOne (keyFilter txid outputIndex topic) upd ds
  = (λ d, if matches (keyFilter txid outputIndex topic) d
          then upd ∪ d else d) <$> ds.
Proof.
  induction ds as [| d ds IH]; [done |].
  rewrite fmap_cons, NoDup_cons. intros [Hfresh Hnodup]. simpl.
  destruct (matches (keyFilter txid outputIndex topic) d) eqn:Hm.
  - f_equal. symmetry. erewrite list_fmap_ext; [apply list_fmap_id |].
    intros n d' Hd'. simpl.
    destruct (matches (keyFilter txid outputIndex topic) d') eqn:Hm';
      [| done].
    exfalso. apply Hfresh. rewrite IndexProofs.matches_key in Hm, Hm'.
    apply bool_decide_eq_true in Hm, Hm'. rewrite Hm, <- Hm'.
    apply list_elem_of_fmap. exists d'. split; [done |].
    by eapply list_elem_of_lookup_2.
  - by rewrite IH.
Qed.

Lemma spentUpdate_other_fields now (d : Doc) field :
  field ≠ "status" → field ≠ "completedAt" →
  (spentUpdate now ∪ d) !! field = d !! field.
Proof.
  intros Hs Hc. apply lookup_union_r. unfold spentUpdate.
  by rewrite !lookup_insert_ne.
Qed.

(** X4. A spend observation touches one record only: the store keeps its
    length and order, every record of another key is left as it is, and
    the record of the key keeps all its fields but [status] (now
    [completed]) and [completedAt] (now the observation time). *)
Theorem outputSpent_touches_one_record txid outputIndex topic now db :
  KeyUnique db →
  docs (bounties (outputSpent txid outputIndex topic now db).2)
  = (λ d, if matches (keyFilter txid outputIndex topic) d
          then spentUpdate now ∪ d else d) <$> docs (bounties db)
  ∧ ∀ d : Doc,
      (spentUpdate now ∪ d) !! "status" = Some (VStr "completed")
      ∧ (spentUpdate now ∪ d) !! "completedAt" = Some (VDate now)
      ∧ ∀ field, field ≠ "status" → field ≠ "completedAt" →
                 (spentUpdate now ∪ d) !! field = d !! field.
Proof.
  intros Hnodup. split.
  - rewrite IndexProofs.outputSpent_run. simpl. by apply updateOne_by_key.
  - intros d. split_and!.
    + by apply lookup_union_Some_l.
    + by apply lookup_union_Some_l.
    + apply spentUpdate_other_fields.
Qed.

Lemma demo_db1_unique : KeyUnique Demo.db1.
Proof.
  unfold KeyUnique. vm_compute. apply NoDup_singleton.
Qed.

Lemma outputSpent_touches_one_record_witness :
  length (docs (bounties
            (outputSpent "deploy-tx" 0 "tm_bounty" 9 Demo.db1).2)) = 1%nat
  ∧ statusOf "deploy-tx" 0 "tm_bounty"
      (outputSpent "deploy-tx" 0 "tm_bounty" 9 Demo.db1).2
    = Some (VStr "completed").
Proof.
  destruct (outputSpent_touches_one_record "deploy-tx" 0 "tm_bounty" 9
              Demo.db1 demo_db1_unique) as [Hdocs _].
  split.
  - rewrite Hdocs. reflexivity.
  - unfold statusOf. rewrite Hdocs. reflexivity.
Defined.

Lemma deleteOne_appended q (d : Doc) ds :
  findOne q ds = None → matches q d = true → deleteOne q (ds ++ [d]) = ds.
Proof.
  intros Hnone Hd. induction ds as [| d' ds IH]; simpl in *.
  - by rewrite Hd.
  - destruct (matches q d'); [done |]. by rewrite IH.
Qed.

(** X5. Rolling back an admission: when an output is observed under a key
    that was not stored and is then deleted (a reorganisation), the
    database is exactly what it was before the observation. *)
Theorem outputAdded_then_outputDeleted txid outputIndex script topic now db :
  KeyIndexed db →
  findOne (keyFilter txid outputIndex topic) (docs (bounties db)) = None →
  (outputDeleted txid outputIndex topic
     (outputAdded txid outputIndex script topic now db).2).2 = db.
Proof.
  intros Hix Hfresh.
  rewrite IndexProofs.outputAdded_run, IndexProofs.outputDeleted_run. simpl.
  rewrite IndexProofs.insertOne_key_indexed by done.
  erewrite IndexProofs.fresh_key_not_violated;
    [| apply IndexProofs.activeRecord_key | done].
  unfold setBounties, withDocs. simpl.
  rewrite deleteOne_appended; [by destruct db as [[] ?] | done |].
  rewrite IndexProofs.matches_key. by apply bool_decide_eq_true.
Qed.

Lemma outputAdded_then_outputDeleted_witness :
  (outputDeleted "t2" 1 "tm_bounty"
     (outputAdded "t2" 1 [0x76] "tm_bounty" 7 Demo.db1).2).2 = Demo.db1
  ∧ length (docs (bounties
              (outputAdded "t2" 1 [0x76] "tm_bounty" 7 Demo.db1).2))
    = 2%nat.
Proof.
  split.
  - apply (outputAdded_then_outputDeleted "t2" 1 [0x76] "tm_bounty" 7
             Demo.db1); reflexivity.
  - reflexivity.
Defined.

(** X6. Replaying a deletion is harmless: with unique keys the second
    [outputDeleted] for a key changes nothing. *)
Theorem outputDeleted_idempotent txid outputIndex topic db :
  KeyUnique db →
  outputDeleted txid outputIndex topic
    (outputDeleted txid outputIndex topic db).2
  = (Ok tt, (outputDeleted txid outputIndex topic db).2).
Proof.
  intros Hnodup.
  apply (absent_key_runs txid outputIndex topic 0).
  rewrite IndexProofs.outputDeleted_run. simpl.
  rewrite IndexProofs.deleteOne_by_key by done.
  apply IndexProofs.filter_not_matching.
Qed.

Lemma outputDeleted_idempotent_witness :
  outputDeleted "deploy-tx" 0 "tm_bounty"
    (outputDeleted "deploy-tx" 0 "tm_bounty" Demo.db1).2
  = (Ok tt, (outputDeleted "deploy-tx" 0 "tm_bounty" Demo.db1).2)
  ∧ docs (bounties (outputDeleted "deploy-tx" 0 "tm_bounty" Demo.db1).2)
    = [].
Proof.
  split.
  - apply (outputDeleted_idempotent "deploy-tx" 0 "tm_bounty" Demo.db1).
    apply demo_db1_unique.
  - reflexivity.
Defined.

Lemma spentUpdate_absorbs now1 now2 (d : Doc) :
  spentUpdate now2 ∪ (spentUpdate now1 ∪ d) = spentUpdate now2 ∪ d.
Proof.
  apply map_eq. intros field.
  destruct (decide (field = "status")) as [-> | Hs];
    [by rewrite !(lookup_union_Some_l _ _ _ (VStr "completed")) |].
  destruct (decide (field = "completedAt")) as [-> | Hc];
    [by rewrite !(lookup_union_Some_l _ _ _ (VDate now2)) |].
  by rewrite !spentUpdate_other_fields.
Qed.

Lemma updateOne_spent_replay txid outputIndex topic now1 now2
    (ds : list Doc) :
  updateOne (keyFilter txid outputIndex topic) (spentUpdate now2)
    (updateOne (keyFilter txid outputIndex topic) (spentUpdate now1) ds)
  = updateOne (keyFilter txid outputIndex topic) (spentUpdate now2) ds.
Proof.
  induction ds as [| d ds IH]; [done |]. simpl.
  destruct (matches (keyFilter txid outputIndex topic) d) eqn:Hm; simpl.
  - replace (matches _ (spentUpdate now1 ∪ d)) with true.
    + by rewrite spentUpdate_absorbs.
    + symmetry. rewrite IndexProofs.matches_key in Hm |- *.
      by rewrite IndexProofs.indexKey_union
        by apply IndexProofs.spentUpdate_keeps_key.
  - by rewrite Hm, IH.
Qed.

(** X7. Replaying a spend observation: the later observation wins.  Two
    [outputSpent] calls for the same key leave the database as the second
    one alone would; only [completedAt] can differ from the state after
    the first. *)
Theorem outputSpent_replay txid outputIndex topic now1 now2 db :
  outputSpent txid outputIndex topic now2
    (outputSpent txid outputIndex topic now1 db).2
  = outputSpent txid outputIndex topic now2 db.
Proof.
  rewrite !IndexProofs.outputSpent_run. unfold setBounties, withDocs. simpl.
  by rewrite updateOne_spent_replay.
Qed.

(** ** The query resolver *)

Lemma matches_app q1 q2 (d : Doc) :
  matches (q1 ++ q2) d = matches q1 d && matches q2 d.
Proof. unfold matches. apply forallb_app. Qed.

Lemma matches_single field v (d : Doc) :
  matches [(field, v)] d = true ↔ d !! field = Some v.
Proof.
  unfold matches. simpl. rewrite andb_true_r. apply bool_decide_eq_true.
Qed.

Lemma addFilter_dropEmpty field v q :
  addFilter field v q
  = match dropEmpty v with
    | Some s => q ++ [(field, VStr s)]
    | None => q
    end.
Proof.
  unfold addFilter, dropEmpty, truthy. destruct v as [s |]; [| done].
  by destruct (String.eqb s "").
Qed.

Lemma dropEmpty_idempotent v : dropEmpty (dropEmpty v) = dropEmpty v.
Proof.
  destruct v as [s |]; [| done]. simpl.
  destruct (String.eqb s "") eqn:Hs; [done |]. simpl. by rewrite Hs.
Qed.

Lemma truthy_dropEmpty v : truthy v = bool_decide (is_Some (dropEmpty v)).
Proof.
  unfold truthy, dropEmpty. destruct v as [s |]; [| done].
  by destruct (String.eqb s "").
Qed.

Lemma matches_addFilter field v q (d : Doc) :
  matches (addFilter field v q) d = true
  ↔ matches q d = true ∧ passes field v d.
Proof.
  rewrite addFilter_dropEmpty. unfold passes.
  destruct (dropEmpty v) as [s |].
  - rewrite matches_app, andb_true_iff, matches_single. split.
    + intros [? Hd]. split; [done |]. by intros ? [= <-].
    + intros [? Hd]. auto.
  - split; [| tauto]. intros ?. split; [done |]. by intros ? [=].
Qed.

Lemma matches_baseQuery query (d : Doc) :
  matches (baseQuery query) d = true ↔ selected query d.
Proof.
  unfold baseQuery, selected. rewrite !matches_addFilter, matches_single.
  tauto.
Qed.

Lemma elem_of_toFormula ref q (ds : list Doc) :
  ref ∈ toFormula (find q ds)
  ↔ ∃ d, d ∈ ds ∧ matches q d = true ∧ ref = referenceOf d.
Proof.
  unfold toFormula, find. rewrite list_elem_of_fmap. split.
  - intros (d & -> & Hd). apply list_elem_of_In, filter_In in Hd as [Hd ?].
    apply list_elem_of_In in Hd. eauto.
  - intros (d & Hd & Hm & ->). exists d. split; [done |].
    apply list_elem_of_In, filter_In. by rewrite <- list_elem_of_In.
Qed.

Lemma lookup_plain query db :
  dropEmpty (q_githubUsername query) = None →
  lookup (Some query) db
  = (Ok (Formula (toFormula (find (baseQuery query) (docs (bounties db))))),
     db).
Proof.
  intros Hnone. unfold lookup. simpl.
  destruct (q_githubUsername query) as [u |] eqn:Hu; [| done].
  rewrite truthy_dropEmpty, Hnone.
  rewrite bool_decide_eq_false_2; [done | by intros [? ?]].
Qed.

(** Whatever it answers, a lookup reads only: the store is untouched, and
    a formula lists records the base filter selects. *)
Lemma lookup_reads question db :
  (lookup question db).2 = db
  ∧ ∀ refs ref,
      (lookup question db).1 = Ok (Formula refs) → ref ∈ refs →
      ∃ d, d ∈ docs (bounties db)
           ∧ selected (default emptyQuery question) d
           ∧ ref = referenceOf d.
Proof.
  unfold lookup. set (query := default emptyQuery question).
  assert (Hfind : ∀ extra refs ref,
    toFormula (find (baseQuery query ++ extra) (docs (bounties db))) = refs →
    ref ∈ refs →
    ∃ d, d ∈ docs (bounties db) ∧ selected query d ∧ ref = referenceOf d).
  { intros extra refs ref <- (d & Hd & Hm & ->)%elem_of_toFormula.
    rewrite matches_app, andb_true_iff, matches_baseQuery in Hm.
    exists d. tauto. }
  destruct (q_githubUsername query) as [u |]; simpl.
  - destruct (truthy (Some u)); simpl.
    + unfold bind, identitiesFindOne.
      destruct (resolve u (githubIdentities db)); simpl.
      * split; [done |]. intros refs ref [= Heq]. by eapply Hfind.
      * split; [done |]. by intros refs ref [=].
    + split; [done |]. intros refs ref [= Heq].
      apply (Hfind []). by rewrite app_nil_r.
  - split; [done |]. intros refs ref [= Heq].
    apply (Hfind []). by rewrite app_nil_r.
Qed.

(** X8. Without a username filter the resolver answers with a formula
    that lists exactly the stored records of topic [tm_bounty] passing
    every non-empty filter; records of any other topic are never listed,
    and the store is not touched. *)
Theorem lookup_lists_selected_records query db :
  dropEmpty (q_githubUsername query) = None →
  ∃ refs,
    lookup (Some query) db = (Ok (Formula refs), db)
    ∧ ∀ ref, ref ∈ refs
             ↔ ∃ d, d ∈ docs (bounties db) ∧ selected query d
                    ∧ ref = referenceOf d.
Proof.
  intros Hnone. eexists. split; [by apply lookup_plain |].
  intros ref. rewrite elem_of_toFormula.
  by setoid_rewrite matches_baseQuery.
Qed.

Lemma lookup_lists_selected_records_witness :
  ∃ refs,
    lookup (Some {| q_issueId := None; q_repoOwner := Some "acme";
                    q_githubUsername := None; q_status := Some "active" |})
      Demo.db1 = (Ok (Formula refs), Demo.db1)
    ∧ (Some (VStr "deploy-tx"), Some (VNum 0)) ∈ refs.
Proof.
  destruct (lookup_lists_selected_records
              {| q_issueId := None; q_repoOwner := Some "acme";
                 q_githubUsername := None; q_status := Some "active" |}
              Demo.db1 eq_refl) as (refs & Hrun & Hrefs).
  exists refs. split; [exact Hrun |]. apply Hrefs.
  eexists. split; [apply list_elem_of_here |].
  split; [| reflexivity].
  split_and!; [reflexivity | by intros ? [=] | |]; by intros ? [= <-].
Defined.

(** C8. A query that names a GitHub username unknown to the identity
    store is answered with an empty output list, without an error and
    without touching the store.  A known username is first resolved to
    its identity key, and the answer then lists exactly the stored records
    of topic [tm_bounty] that pass every other non-empty filter and whose
    [identityKey] field is that key. *)
Theorem lookup_resolves_username query u db :
  q_githubUsername query = Some u → u ≠ "" →
  match resolve u (githubIdentities db) with
  | None => lookup (Some query) db = (Ok (OutputList []), db)
  | Some identity =>
      ∃ refs,
        lookup (Some query) db = (Ok (Formula refs), db)
        ∧ ∀ ref,
            ref ∈ refs
            ↔ ∃ d, d ∈ docs (bounties db) ∧ selected query d
                   ∧ d !! "identityKey"
                     = Some (VStr (identityKey identity))
                   ∧ ref = referenceOf d
  end.
Proof.
  intros Hq Hne. rewrite (IndexProofs.lookup_by_username query u db Hq Hne).
  destruct (resolve u (githubIdentities db)) as [identity |]; [| done].
  eexists. split; [reflexivity |].
  intros ref. rewrite elem_of_toFormula.
  setoid_rewrite matches_app. setoid_rewrite andb_true_iff.
  setoid_rewrite matches_baseQuery. setoid_rewrite matches_single.
  naive_solver.
Qed.

Lemma lookup_resolves_username_witness :
  lookup (Some {| q_issueId := None; q_repoOwner := None;
                  q_githubUsername := Some "nobody";
                  q_status := Some "active" |}) Demo.db1
  = (Ok (OutputList []), Demo.db1)
  ∧ ∃ refs,
      lookup (Some {| q_issueId := None; q_repoOwner := Some "acme";
                      q_githubUsername := Some "carol";
                      q_status := Some "active" |}) Demo.dbKeyed
      = (Ok (Formula refs), Demo.dbKeyed)
      ∧ (Some (VStr "t9"), Some (VNum 0)) ∈ refs
      ∧ (Some (VStr "t7"), Some (VNum 0)) ∉ refs.
Proof.
  split.
  - apply (lookup_resolves_username
             {| q_issueId := None; q_repoOwner := None;
                q_githubUsername := Some "nobody";
                q_status := Some "active" |} "nobody" Demo.db1).
    + reflexivity.
    + discriminate.
  - destruct (lookup_resolves_username
                {| q_issueId := None; q_repoOwner := Some "acme";
                   q_githubUsername := Some "carol";
                   q_status := Some "active" |} "carol" Demo.dbKeyed
                eq_refl) as (refs & Hrun & Hrefs).
    + discriminate.
    + exists refs. split_and!; [exact Hrun | |].
      * apply Hrefs. exists Demo.keyedRecord.
        split_and!; [apply list_elem_of_here | | reflexivity | reflexivity].
        split_and!; [reflexivity | by intros ? [=] | |]; by intros ? [= <-].
      * intros (d & Hd & _ & Hkey & Href)%Hrefs.
        apply elem_of_cons in Hd as [-> | Hd]; [discriminate Href |].
        apply list_elem_of_singleton in Hd as ->. discriminate Hkey.
Defined.

Lemma baseQuery_normalise query :
  baseQuery (normalise query) = baseQuery query.
Proof.
  unfold baseQuery, normalise. simpl.
  by rewrite !addFilter_dropEmpty, !dropEmpty_idempotent.
Qed.

(** X9. A filter given as the empty string is no filter: the resolver
    answers a query exactly as it answers the query with every
    empty-string field removed (an empty [githubUsername] is not looked up
    in the identity store), and a missing query as the empty query. *)
Theorem lookup_ignores_empty_strings query db :
  lookup (Some query) db = lookup (Some (normalise query)) db
  ∧ lookup None db = lookup (Some emptyQuery) db.
Proof.
  split; [| done]. unfold lookup. simpl.
  rewrite baseQuery_normalise.
  destruct (q_githubUsername query) as [u |]; [| done]. simpl.
  unfold truthy. destruct (String.eqb u "") eqn:Hu; simpl; [done |].
  by rewrite Hu.
Qed.

Lemma selected_matches_key query (d : Doc) txid outputIndex :
  selected query d →
  referenceOf d = (Some (VStr txid), Some (VNum outputIndex)) →
  matches (keyFilter txid outputIndex "tm_bounty") d = true.
Proof.
  intros (Htopic & _) [= Htx Hix]. rewrite IndexProofs.matches_key.
  apply bool_decide_eq_true. unfold indexKey, keyFields, storedKey. simpl.
  by rewrite Htx, Hix, Htopic.
Qed.

(** X10. Once the spend of a [tm_bounty] output has been observed, no
    lookup that filters on status [active] lists that output any more
    (with unique keys), whatever other filters the query carries. *)
Theorem spent_output_leaves_active_listing
    txid outputIndex now question db refs :
  KeyUnique db →
  q_status (default emptyQuery question) = Some "active" →
  (lookup question (outputSpent txid outputIndex "tm_bounty" now db).2).1
  = Ok (Formula refs) →
  (Some (VStr txid), Some (VNum outputIndex)) ∉ refs.
Proof.
  intros Hnodup Hstatus Hrun Hin.
  destruct (lookup_reads question
              (outputSpent txid outputIndex "tm_bounty" now db).2)
    as [_ Hsel].
  destruct (Hsel refs _ Hrun Hin) as (d' & Hd' & Hselected & Href).
  assert (Hactive : d' !! "status" = Some (VStr "active")).
  { destruct Hselected as (_ & _ & _ & Hpass). apply Hpass.
    by rewrite Hstatus. }
  pose proof (selected_matches_key _ _ _ _ Hselected (eq_sym Href)) as Hkey.
  rewrite IndexProofs.outputSpent_run in Hd'. simpl in Hd'.
  rewrite updateOne_by_key in Hd' by done.
  apply list_elem_of_fmap in Hd' as (d & -> & _).
  destruct (matches (keyFilter txid outputIndex "tm_bounty") d) eqn:Hm.
  - rewrite (lookup_union_Some_l _ _ _ (VStr "completed")) in Hactive;
      [discriminate | done].
  - congruence.
Qed.

Lemma spent_output_leaves_active_listing_witness :
  (lookup (Some {| q_issueId := None; q_repoOwner := None;
                   q_githubUsername := None; q_status := Some "active" |})
     (outputSpent "deploy-tx" 0 "tm_bounty" 9 Demo.db1).2).1
  = Ok (Formula [])
  ∧ (Some (VStr "deploy-tx"), Some (VNum 0)) ∉ ([] : list Reference).
Proof.
  split; [reflexivity |].
  apply (spent_output_leaves_active_listing "deploy-tx" 0 9
           (Some {| q_issueId := None; q_repoOwner := None;
                    q_githubUsername := None; q_status := Some "active" |})
           Demo.db1 []).
  - apply demo_db1_unique.
  - reflexivity.
  - reflexivity.
Defined.

Lemma find_appended_unselected q (d : Doc) ds :
  matches q d = false → find q (ds ++ [d]) = find q ds.
Proof.
  intros Hd. unfold find. rewrite List.filter_app. simpl.
  by rewrite Hd, app_nil_r.
Qed.

Lemma find_appended_selected q (d : Doc) ds :
  matches q d = true → find q (ds ++ [d]) = find q ds ++ [d].
Proof.
  intros Hd. unfold find. rewrite List.filter_app. simpl. by rewrite Hd.
Qed.

Lemma outputAdded_fresh_docs txid outputIndex script topic now db :
  KeyIndexed db →
  findOne (keyFilter txid outputIndex topic) (docs (bounties db)) = None →
  docs (bounties (outputAdded txid outputIndex script topic now db).2)
  = docs (bounties db) ++ [activeRecord txid outputIndex script topic now].
Proof.
  intros Hix Hfresh. rewrite IndexProofs.outputAdded_run. simpl.
  rewrite IndexProofs.insertOne_key_indexed by done.
  by erewrite IndexProofs.fresh_key_not_violated;
    [| apply IndexProofs.activeRecord_key | done].
Qed.

Lemma outputAdded_identities txid outputIndex script topic now db :
  githubIdentities (outputAdded txid outputIndex script topic now db).2
  = githubIdentities db.
Proof.
  rewrite IndexProofs.outputAdded_run. simpl. by destruct (insertOne _ _).
Qed.

(** X11. What a lookup sees of a newly observed output.  Observed under
    topic [tm_bounty], the output is listed by every query without
    username, issue and owner filter whose status filter is absent or
    [active]; no query with an issue or owner filter selects it, the
    handler storing neither field.  Observed under any other topic, it
    changes the answer of no lookup. *)
Theorem observed_output_in_lookups txid outputIndex script topic now db :
  KeyIndexed db →
  findOne (keyFilter txid outputIndex topic) (docs (bounties db)) = None →
  let db' := (outputAdded txid outputIndex script topic now db).2 in
  let record := activeRecord txid outputIndex script topic now in
  (topic = "tm_bounty" →
   ∀ query,
     dropEmpty (q_githubUsername query) = None →
     dropEmpty (q_issueId query) = None →
     dropEmpty (q_repoOwner query) = None →
     dropEmpty (q_status query) = None ∨ q_status query = Some "active" →
     ∃ refs, lookup (Some query) db' = (Ok (Formula refs), db')
             ∧ (Some (VStr txid), Some (VNum outputIndex)) ∈ refs)
  ∧ (∀ query,
       is_Some (dropEmpty (q_issueId query))
       ∨ is_Some (dropEmpty (q_repoOwner query)) →
       ¬ selected query record)
  ∧ (topic ≠ "tm_bounty" →
     ∀ question, (lookup question db').1 = (lookup question db).1).
Proof.
  intros Hix Hfresh db' record.
  assert (Hdocs : docs (bounties db') = docs (bounties db) ++ [record])
    by by apply outputAdded_fresh_docs.
  split_and!.
  - intros -> query Hu Hi Ho Hs. eexists. split; [by apply lookup_plain |].
    apply elem_of_toFormula. exists record. split_and!.
    + rewrite Hdocs. apply elem_of_app. right. apply list_elem_of_here.
    + apply matches_baseQuery. unfold selected, passes.
      rewrite Hi, Ho. split_and!; [done | done | done |].
      destruct Hs as [-> | ->]; [done |]. by intros ? [= <-].
    + reflexivity.
  - intros query Hfilter (_ & Hi & Ho & _).
    destruct Hfilter as [[s Hs] | [s Hs]].
    + specialize (Hi s Hs). discriminate Hi.
    + specialize (Ho s Hs). discriminate Ho.
  - intros Htopic question. unfold lookup.
    set (query := default emptyQuery question).
    assert (Hfind : ∀ extra,
      find (baseQuery query ++ extra) (docs (bounties db'))
      = find (baseQuery query ++ extra) (docs (bounties db))).
    { intros extra. rewrite Hdocs. apply find_appended_unselected.
      rewrite matches_app. apply andb_false_iff. left.
      apply not_true_is_false. rewrite matches_baseQuery.
      intros (Ht & _).
      change (Some (VStr topic) = Some (VStr "tm_bounty")) in Ht.
      congruence. }
    assert (Hids : githubIdentities db' = githubIdentities db)
      by apply outputAdded_identities.
    pose proof (Hfind []) as Hplain. rewrite !app_nil_r in Hplain.
    clearbody db'.
    destruct (q_githubUsername query) as [u |];
      [destruct (truthy (Some u)) |];
      unfold bind, bountiesFind, identitiesFindOne, ret; simpl;
      rewrite ?Hids, ?Hplain; try done.
    destruct (resolve u (githubIdentities db)); simpl; [| done].
    by rewrite Hfind.
Qed.

Lemma observed_output_in_lookups_witness :
  (∃ refs,
     lookup (Some emptyQuery)
       (outputAdded "t2" 1 [0x76] "tm_bounty" 7 Demo.db1).2
     = (Ok (Formula refs),
        (outputAdded "t2" 1 [0x76] "tm_bounty" 7 Demo.db1).2)
     ∧ (Some (VStr "t2"), Some (VNum 1)) ∈ refs)
  ∧ (lookup (Some emptyQuery)
       (outputAdded "t2" 1 [0x76] "tm_other" 7 Demo.db1).2).1
    = (lookup (Some emptyQuery) Demo.db1).1.
Proof.
  split.
  - destruct (observed_output_in_lookups "t2" 1 [0x76] "tm_bounty" 7
                Demo.db1) as (Hlisted & _ & _); [reflexivity.. |].
    apply Hlisted; auto.
  - destruct (observed_output_in_lookups "t2" 1 [0x76] "tm_other" 7
                Demo.db1) as (_ & _ & Hhidden); [reflexivity.. |].
    apply Hhidden. discriminate.
Defined.

(** ** The topic manager *)

Lemma outputsFrom_sorted k (lockingScripts : list (list Z)) :
  StronglySorted lt (TopicManager.outputsFrom k lockingScripts)
  ∧ Forall (λ i, k ≤ i < k + length lockingScripts)%nat
      (TopicManager.outputsFrom k lockingScripts).
Proof.
  revert k. induction lockingScripts as [| s rest IH]; intros k; simpl.
  - split; constructor.
  - destruct (IH (S k)) as [Hsorted Hbound].
    assert (Hweak : Forall (λ i, k ≤ i < k + S (length rest))%nat
                      (TopicManager.outputsFrom (S k) rest)).
    { eapply Forall_impl; [exact Hbound |]. simpl. intros; lia. }
    destruct (TopicManager.isBountyLockingScript s); [| done].
    split.
    + constructor; [done |].
      eapply Forall_impl; [exact Hbound |]. simpl. intros; lia.
    + constructor; [lia | done].
Qed.

(** X12. The topic manager admits exactly the outputs whose locking
    script begins with byte 0x76 (an empty script never), lists their
    indexes in ascending order without repetition and within the
    transaction's outputs, and retains every previous coin. *)
Theorem identifyAdmissibleOutputs_exact
    (lockingScripts : list (list Z)) previousCoins :
  let instructions :=
    TopicManager.identifyAdmissibleOutputs lockingScripts previousCoins in
  (∀ i, i ∈ TopicManager.outputsToAdmit instructions
        ↔ ∃ script, lockingScripts !! i = Some script
                    ∧ script !! 0%nat = Some 0x76)
  ∧ StronglySorted lt (TopicManager.outputsToAdmit instructions)
  ∧ Forall (λ i, i < length lockingScripts)%nat
      (TopicManager.outputsToAdmit instructions)
  ∧ TopicManager.coinsToRetain instructions = previousCoins.
Proof.
  simpl. split_and!.
  - intros i. rewrite IndexProofs.outputsFrom_spec. split.
    + intros (j & script & -> & Hj & Hadm). exists script.
      by rewrite <- IndexProofs.isBountyLockingScript_head.
    + intros (script & Hi & Hhead). exists i, script.
      by rewrite IndexProofs.isBountyLockingScript_head.
  - apply outputsFrom_sorted.
  - eapply Forall_impl; [apply (outputsFrom_sorted 0) |]. simpl.
    intros; lia.
  - done.
Qed.

End IndexExtras.

(** * Further properties of the workflows *)

Module ServiceExtras.
Import Mongo Service.

Section CreationFacts.
Context `{Contract.ScryptLib}.
Variable C : Collaborators.
Variable certifierPublicKey : string.

Ltac run_steps Hbody :=
  unfold bind, call, throw, ret, bountiesFindOne, bountiesUpdateOne,
    bountiesInsertOne, getGitHubIdentityByUsername in Hbody;
  repeat first
    [ discriminate Hbody
    | match type of Hbody with
      | context [match ?x with _ => _ end] => destruct x eqn:?
      | context [if ?b then _ else _] => destruct b eqn:?
      end ];
  repeat match goal with
         | Hstep : match ?x with _ => _ end = _ |- _ => destruct x eqn:?
         end;
  simplify_eq.

(** What a successful [createBounty] has done. *)
Lemma createBounty_success issueId repoOwner ownerUsername amount days now
    later db txid outputIndex db' :
  createBounty C certifierPublicKey issueId repoOwner ownerUsername amount
    days now later db = (Ok (txid, outputIndex), db') →
  ∃ (record : Doc) instance funderKey,
    outputIndex = 0
    ∧ is_Some (resolve ownerUsername (githubIdentities db))
    ∧ deploy C instance amount = Ok txid
    ∧ Contract.issueId instance = BigInt (stripNonDigits issueId)
    ∧ deadlineBigInt C (now `div` 1000) (default 30 days)
      = Ok (Contract.deadline instance)
    ∧ checkAddrArgument C (Some (VStr (toAddress C funderKey)))
      = Ok (Contract.funderAddr instance)
    ∧ record
      = <["txid" := VStr txid]>
        (<["outputIndex" := VNum 0]>
        (<["script" := VArr (lockingScript C instance)]>
        (<["topic" := VStr "tm_bounty"]>
        (<["issueId" := VStr issueId]>
        (<["repoOwner" := VStr repoOwner]>
        (<["funderIdentityKey" := VStr (keyToString C funderKey)]>
        (<["status" := VStr "active"]>
        (<["amount" := VNum amount]>
        (<["deadline"
           := newDate ((now `div` 1000 + default 30 days * 24 * 60 * 60)
                       * 1000)]>
        (<["createdAt" := VDate later]> ∅))))))))))
    ∧ insertOne record (bounties db)
      = Some {| docs := docs (bounties db) ++ [record];
                uniqueIndexes := uniqueIndexes (bounties db) |}
    ∧ db' = setBounties
              {| docs := docs (bounties db) ++ [record];
                 uniqueIndexes := uniqueIndexes (bounties db) |} db.
Proof.
  unfold createBounty, tryCatch.
  match goal with |- context [match ?body db with _ => _ end] =>
    destruct (body db) as [[id | e] db1] eqn:Hbody end;
    intros [= -> <-]; run_steps Hbody.
  match goal with
  | Hnew : newBountyContract _ _ _ _ _ _ = Ok ?inst |- _ =>
      unfold newBountyContract in Hnew;
      destruct (checkAddrArgument C _) as [addr |] eqn:Haddr;
        [| discriminate Hnew];
      injection Hnew as <-
  end.
  match goal with
  | Hins : insertOne ?r _ = Some ?c |- _ =>
      pose proof (ServiceProofs.insertOne_some _ _ _ Hins) as Hdocs;
      assert (Hix : uniqueIndexes c = uniqueIndexes (bounties db))
        by (unfold insertOne in Hins;
            destruct (existsb _ _); [done | by injection Hins as <-]);
      destruct c as [cdocs cix]; simpl in Hdocs, Hix; subst cdocs cix
  end.
  eexists _, _, _. split_and!; done.
Qed.






(** X14. The ledger observation of an output that [createBounty] has
    already recorded adds nothing and changes nothing: with the unique key
    index in place, [outputAdded] for the returned reference under topic
    [tm_bounty] leaves the database, and so the record's issue, owner,
    amount and deadline, untouched. *)
Theorem created_bounty_is_observed_once
    issueId repoOwner ownerUsername amount days now later db txid outputIndex
    db' script now' :
  createBounty C certifierPublicKey issueId repoOwner ownerUsername amount
    days now later db = (Ok (txid, outputIndex), db') →
  KeyIndexed db →
  LookupService.outputAdded txid outputIndex script "tm_bounty" now' db'
  = (Ok tt, db').
Proof.
  intros Hrun Hix.
  apply createBounty_success in Hrun
    as (record & inst & fk & -> & _ & _ & _ & _ & _ & Hrec & _ & ->).
  rewrite IndexProofs.outputAdded_run. f_equal.
  rewrite IndexProofs.insertOne_key_indexed by done. simpl.
  replace (violates keyFields _ _) with true; [done |].
  symmetry. apply IndexProofs.violates_iff.
  rewrite fmap_app. apply elem_of_app. right.
  apply list_elem_of_singleton. by rewrite Hrec.
Qed.


Lemma payBounty_constructs txid outputIndex solver pr now db id db' :
  payBounty C certifierPublicKey txid outputIndex solver pr now db
  = (Ok id, db') →
  ∃ bounty addr,
    findOne (txFilter txid outputIndex) (docs (bounties db)) = Some bounty
    ∧ checkAddrArgument C (bounty !! "funderAddress") = Ok addr.
Proof.
  unfold payBounty, tryCatch.
  match goal with |- context [match ?body db with _ => _ end] =>
    destruct (body db) as [[id' | e] db1] eqn:Hbody end;
    intros [= -> <-]; run_steps Hbody.
  match goal with
  | Hnew : newBountyContract _ _ _ _ _ _ = Ok _ |- _ =>
      unfold newBountyContract in Hnew;
      destruct (checkAddrArgument C _) as [addr |] eqn:Haddr;
        [| discriminate Hnew]
  end.
  eauto.
Qed.

Lemma cancelBounty_constructs txid outputIndex now db id db' :
  cancelBounty C certifierPublicKey txid outputIndex now db = (Ok id, db') →
  ∃ bounty addr,
    findOne (txFilter txid outputIndex) (docs (bounties db)) = Some bounty
    ∧ checkAddrArgument C (bounty !! "funderAddress") = Ok addr.
Proof.
  unfold cancelBounty, tryCatch.
  match goal with |- context [match ?body db with _ => _ end] =>
    destruct (body db) as [[id' | e] db1] eqn:Hbody end;
    intros [= -> <-]; run_steps Hbody.
  match goal with
  | Hnew : newBountyContract _ _ _ _ _ _ = Ok _ |- _ =>
      unfold newBountyContract in Hnew;
      destruct (checkAddrArgument C _) as [addr |] eqn:Haddr;
        [| discriminate Hnew]
  end.
  eauto.
Qed.

Lemma refundExpiredBounty_constructs txid outputIndex now db id db' :
  refundExpiredBounty C certifierPublicKey txid outputIndex now db
  = (Ok id, db') →
  ∃ bounty ownerKey,
    findOne (txFilter txid outputIndex) (docs (bounties db)) = Some bounty
    ∧ publicKeyFromString C (bounty !! "repoOwnerIdentityKey") = Ok ownerKey.
Proof.
  unfold refundExpiredBounty, tryCatch.
  match goal with |- context [match ?body db with _ => _ end] =>
    destruct (body db) as [[id' | e] db1] eqn:Hbody end;
    intros [= -> <-]; run_steps Hbody.
  eauto.
Qed.

End CreationFacts.

(** ** Fields no writer stores *)

Lemma updateOne_lacks q (upd : Doc) ds :
  StoredFields.LacksReadBackFields upd →
  Forall StoredFields.LacksReadBackFields ds →
  Forall StoredFields.LacksReadBackFields (updateOne q upd ds).
Proof.
  intros [Hu1 Hu2]. induction 1 as [| d ds [Hd1 Hd2] Hds IH]; [done |].
  simpl. destruct (matches q d); constructor; try done.
  split; by rewrite lookup_union_r.
Qed.

Lemma produced_lacks_read_back_fields db :
  Lifecycle.Produced db → Forall StoredFields.LacksReadBackFields (docs (bounties db)).
Proof.
  induction 1 as
    [ | db ids _ IH
      | db txid i script topic now _ IH
      | db txid i topic now _ IH
      | db txid i topic _ IH
      | db C cert issue owner user amount days now later _ IH
      | db L C cert txid i solver pr now _ IH
      | db L C cert txid i now _ IH
      | db L C cert txid i now _ IH ].
  - constructor.
  - exact IH.
  - rewrite IndexProofs.outputAdded_run. simpl.
    destruct (insertOne _ _) eqn:Hins; [| done]. simpl.
    rewrite (ServiceProofs.insertOne_some _ _ _ Hins).
    apply Forall_app. split; [done |]. by apply Forall_singleton.
  - rewrite IndexProofs.outputSpent_run. by apply updateOne_lacks.
  - rewrite IndexProofs.outputDeleted_run. simpl.
    rewrite Forall_forall in IH |- *. intros d Hd. apply IH.
    eapply elem_of_sublist; [done | apply IndexProofs.deleteOne_sublist].
  - destruct (createBounty _ _ _ _ _ _ _ _ _ db) as [[[t o] | e] db'] eqn:Hrun.
    + apply createBounty_success in Hrun
        as (record & inst & fk & _ & _ & _ & _ & _ & _ & -> & _ & ->).
      simpl. apply Forall_app. split; [done |]. by apply Forall_singleton.
    + apply ServiceProofs.createBounty_outcome in Hrun
        as [[_ ->] | (? & ? & ? & [=] & _)]. done.
  - destruct (payBounty _ _ _ _ _ _ _ db) as [r db'] eqn:Hrun.
    apply ServiceProofs.payBounty_outcome in Hrun
      as [[_ ->] | (? & ? & ? & ? & ? & _ & _ & _ & _ & _ & _ & ->)];
      [done |].
    by apply updateOne_lacks.
  - destruct (refundExpiredBounty _ _ _ _ _ db) as [r db'] eqn:Hrun.
    apply ServiceProofs.refundExpiredBounty_outcome in Hrun
      as [[_ ->] | (? & ? & ? & ? & _ & _ & _ & _ & _ & ->)]; [done |].
    by apply updateOne_lacks.
  - destruct (cancelBounty _ _ _ _ _ db) as [r db'] eqn:Hrun.
    apply ServiceProofs.cancelBounty_outcome in Hrun
      as [[_ ->] | (? & ? & ? & ? & _ & _ & _ & _ & _ & ->)]; [done |].
    by apply updateOne_lacks.
Qed.

Lemma findOne_elem q (d : Doc) ds : findOne q ds = Some d → d ∈ ds.
Proof.
  induction ds as [| d' ds IH]; [done |]. simpl.
  destruct (matches q d').
  - intros [= ->]. apply list_elem_of_here.
  - intros ?. apply list_elem_of_further. auto.
Qed.

Section BlockedFacts.
Context `{Contract.ScryptLib}.
Variable C : Collaborators.
Variable certifierPublicKey : string.

(** X16. The pay and cancel workflows hand [bounty.funderAddress] to the
    contract constructor and the refund workflow parses
    [bounty.repoOwnerIdentityKey], but no writer stores either field: in
    every store the code produces both read as undefined.  So wherever the
    constructor refuses an undefined address, [payBounty] and
    [cancelBounty] always throw, and wherever the key parser refuses
    undefined, [refundExpiredBounty] always throws, each leaving the
    database unchanged. *)
Theorem workflows_read_fields_never_stored txid outputIndex now db :
  Lifecycle.Produced db →
  (∀ bounty,
     findOne (txFilter txid outputIndex) (docs (bounties db)) = Some bounty →
     bounty !! "funderAddress" = None
     ∧ bounty !! "repoOwnerIdentityKey" = None)
  ∧ ((∃ e, checkAddrArgument C None = Throw e) →
     (∀ solver pr,
        throwsUnchanged
          (payBounty C certifierPublicKey txid outputIndex solver pr now)
          "Failed to pay bounty" db)
     ∧ throwsUnchanged
         (cancelBounty C certifierPublicKey txid outputIndex now)
         "Failed to cancel bounty" db)
  ∧ ((∃ e, publicKeyFromString C None = Throw e) →
     throwsUnchanged
       (refundExpiredBounty C certifierPublicKey txid outputIndex now)
       "Failed to refund expired bounty" db).
Proof.
  intros Hprod.
  assert (Hlacks : ∀ bounty,
    findOne (txFilter txid outputIndex) (docs (bounties db)) = Some bounty →
    StoredFields.LacksReadBackFields bounty).
  { intros bounty Hfind.
    pose proof (produced_lacks_read_back_fields db Hprod) as Hall.
    rewrite Forall_forall in Hall. by eapply Hall, findOne_elem. }
  split_and!; [exact Hlacks | |].
  - intros [e He]. split; [intros solver pr |]; unfold throwsUnchanged.
    + destruct (payBounty _ _ _ _ _ _ _ db) as [[id | e'] db'] eqn:Hrun.
      * apply payBounty_constructs in Hrun as (b & a & Hb & Ha).
        destruct (Hlacks b Hb) as [Hnone _]. congruence.
      * by apply ServiceProofs.payBounty_outcome in Hrun
          as [[-> ->] | (? & ? & ? & ? & ? & [=] & _)].
    + destruct (cancelBounty _ _ _ _ _ db) as [[id | e'] db'] eqn:Hrun.
      * apply cancelBounty_constructs in Hrun as (b & a & Hb & Ha).
        destruct (Hlacks b Hb) as [Hnone _]. congruence.
      * by apply ServiceProofs.cancelBounty_outcome in Hrun
          as [[-> ->] | (? & ? & ? & ? & [=] & _)].
  - intros [e He]. unfold throwsUnchanged.
    destruct (refundExpiredBounty _ _ _ _ _ db) as [[id | e'] db'] eqn:Hrun.
    + apply refundExpiredBounty_constructs in Hrun as (b & k & Hb & Hk).
      destruct (Hlacks b Hb) as [_ Hnone]. congruence.
    + by apply ServiceProofs.refundExpiredBounty_outcome in Hrun
        as [[-> ->] | (? & ? & ? & ? & [=] & _)].
Qed.

End BlockedFacts.

Section ServiceExtraWitnesses.
#[local] Existing Instance Demo.lib.

Lemma demo_create_run :
  createBounty Demo.collaborators "certifier" "acme/widget#42" "acme" "acme"
    50000 (Some 30) 1697408000000 1697408000250 Demo.db0
  = (Ok ("deploy-tx", 0), Demo.db1).
Proof. by vm_compute. Qed.



Lemma created_bounty_is_observed_once_witness :
  LookupService.outputAdded "deploy-tx" 0 [0x76; 42; 1700000000]
    "tm_bounty" 1697408000500 Demo.db1
  = (Ok tt, Demo.db1).
Proof.
  apply (created_bounty_is_observed_once Demo.collaborators "certifier"
           "acme/widget#42" "acme" "acme" 50000 (Some 30) 1697408000000
           1697408000250 Demo.db0 "deploy-tx" 0 Demo.db1).
  - exact demo_create_run.
  - reflexivity.
Defined.


Lemma workflows_read_fields_never_stored_witness :
  throwsUnchanged
    (payBounty Demo.collaborators "certifier" "deploy-tx" 0 "bob" "pr-7"
       1697500000000)
    "Failed to pay bounty" Demo.db1
  ∧ throwsUnchanged
      (refundExpiredBounty Demo.collaborators "certifier" "deploy-tx" 0
         1700000001000)
      "Failed to refund expired bounty" Demo.db1.
Proof.
  split.
  - destruct (workflows_read_fields_never_stored Demo.collaborators
                "certifier" "deploy-tx" 0 1697500000000 Demo.db1
                ServiceProofs.demo_db1_produced) as (_ & Hpay & _).
    apply Hpay. by eexists.
  - destruct (workflows_read_fields_never_stored Demo.collaborators
                "certifier" "deploy-tx" 0 1700000001000 Demo.db1
                ServiceProofs.demo_db1_produced) as (_ & _ & Hrefund).
    apply Hrefund. by eexists.
Defined.

End ServiceExtraWitnesses.

(** ** Issue numbers *)








End ServiceExtras.

(** * How the status of a record moves *)

Module StatusProofs.
Import Mongo Service StoredFields.

Section StatusFacts.
Context `{Contract.ScryptLib}.
Variable C : Collaborators.
Variable certifierPublicKey : string.



End StatusFacts.

Section StatusWitnesses.
#[local] Existing Instance Demo.lib.



End StatusWitnesses.

End StatusProofs.

(** * Properties of the identity store *)

Module IdentityProofs.
Import Mongo IdentityService.

Lemma resolve_upsert_same identity ids :
  resolve (username identity) (upsert identity ids)
  = Some match resolve (username identity) ids with
         | Some stored => setIdentity identity stored
         | None => identity
         end.
Proof.
  unfold resolve. induction ids as [| i ids IH]; simpl.
  - by rewrite bool_decide_eq_true_2.
  - destruct (bool_decide (username i = username identity)) eqn:Hi; simpl.
    + by rewrite bool_decide_eq_true_2.
    + by rewrite Hi.
Qed.

Lemma resolve_upsert_other identity ids u :
  u ≠ username identity →
  resolve u (upsert identity ids) = resolve u ids.
Proof.
  intros Hne. unfold resolve. induction ids as [| i ids IH]; simpl.
  - by rewrite bool_decide_eq_false_2.
  - destruct (bool_decide (username i = username identity)) eqn:Hi; simpl.
    + apply bool_decide_eq_true in Hi.
      rewrite !bool_decide_eq_false_2; [done | congruence | done].
    + by rewrite IH.
Qed.

Lemma length_upsert identity ids :
  length (upsert identity ids)
  = match resolve (username identity) ids with
    | Some _ => length ids
    | None => S (length ids)
    end.
Proof.
  unfold resolve. induction ids as [| i ids IH]; simpl; [done |].
  destruct (bool_decide (username i = username identity)); simpl; [done |].
  rewrite IH. by destruct (List.find _ ids).
Qed.

Lemma resolve_elem u ids i : resolve u ids = Some i → i ∈ ids ∧ username i = u.
Proof.
  unfold resolve. intros Hfind. apply find_some in Hfind as [Hin Hu].
  apply list_elem_of_In in Hin. by apply bool_decide_eq_true in Hu.
Qed.

Lemma resolveKey_elem k ids i :
  resolveKey k ids = Some i → i ∈ ids ∧ identityKey i = k.
Proof.
  unfold resolveKey. intros Hfind. apply find_some in Hfind as [Hin Hk].
  apply list_elem_of_In in Hin. by apply bool_decide_eq_true in Hk.
Qed.

Lemma resolveKey_none k ids :
  resolveKey k ids = None ↔ k ∉ identityKey <$> ids.
Proof.
  unfold resolveKey. induction ids as [| i ids IH]; simpl.
  - split; [intros _; apply not_elem_of_nil | done].
  - rewrite not_elem_of_cons. case_bool_decide as Hi; [| rewrite IH].
    + split; [done |]. intros [? _]. congruence.
    + split; [intros ?; split; [congruence | done] | tauto].
Qed.

(** With unique keys, looking an identity up by its key finds it. *)
Lemma resolveKey_of_member ids i :
  NoDup (identityKey <$> ids) → i ∈ ids →
  resolveKey (identityKey i) ids = Some i.
Proof.
  unfold resolveKey. induction ids as [| j ids IH]; simpl.
  - by intros _ ?%not_elem_of_nil.
  - rewrite NoDup_cons. intros [Hfresh Hnodup] Hin.
    case_bool_decide as Hj.
    + apply elem_of_cons in Hin as [-> | Hin]; [done |].
      exfalso. apply Hfresh. rewrite Hj. by apply list_elem_of_fmap_2.
    + apply elem_of_cons in Hin as [-> | Hin]; [done | auto].
Qed.

Lemma upsert_usernames identity ids :
  NoDup (username <$> ids) → NoDup (username <$> upsert identity ids).
Proof.
  induction ids as [| i ids IH]; simpl.
  - intros _. apply NoDup_singleton.
  - rewrite NoDup_cons. intros [Hfresh Hnodup].
    case_bool_decide as Hi; rewrite fmap_cons; simpl.
    + apply NoDup_cons. by rewrite <- Hi.
    + apply NoDup_cons. split; [| auto].
      intros (j & Hj & Hin)%list_elem_of_fmap.
      assert (Hcases : j = identity ∨ j ∈ ids ∨
                ∃ stored, stored ∈ ids ∧ j = setIdentity identity stored).
      { clear -Hin. induction ids as [| i' ids IH]; simpl in Hin.
        - apply list_elem_of_singleton in Hin. auto.
        - case_bool_decide.
          + apply elem_of_cons in Hin as [-> | Hin].
            * right. right. exists i'. split; [apply list_elem_of_here | done].
            * right. left. by apply list_elem_of_further.
          + apply elem_of_cons in Hin as [-> | Hin].
            * right. left. apply list_elem_of_here.
            * destruct (IH Hin) as [? | [? | (st & ? & ?)]]; auto.
              -- right. left. by apply list_elem_of_further.
              -- right. right. exists st.
                 split; [by apply list_elem_of_further | done]. }
      destruct Hcases as [-> | [Hj' | (st & _ & ->)]].
      * done.
      * apply Hfresh. rewrite Hj. by apply list_elem_of_fmap_2.
      * simpl in Hj. done.
Qed.

Lemma upsert_keys identity ids x :
  x ∈ identityKey <$> upsert identity ids →
  x = identityKey identity ∨ x ∈ identityKey <$> ids.
Proof.
  induction ids as [| i ids IH]; simpl.
  - intros ->%list_elem_of_singleton. by left.
  - case_bool_decide; rewrite !fmap_cons, !elem_of_cons; simpl.
    + tauto.
    + intros [-> | Hx]; [tauto |]. destruct (IH Hx); tauto.
Qed.

Lemma upsert_keeps_keys_unique identity ids :
  NoDup (identityKey <$> ids) →
  resolveKey (identityKey identity) (others (username identity) ids) = None →
  NoDup (identityKey <$> upsert identity ids).
Proof.
  induction ids as [| i ids IH]; cbn [upsert others].
  - intros _ _. apply NoDup_singleton.
  - rewrite fmap_cons, NoDup_cons. intros [Hfresh Hnodup].
    case_bool_decide as Hi; rewrite fmap_cons; cbn [identityKey setIdentity].
    + intros Hnone%resolveKey_none. by apply NoDup_cons.
    + intros Hnone%resolveKey_none.
      rewrite fmap_cons, not_elem_of_cons in Hnone.
      destruct Hnone as [Hk Hrest]. apply NoDup_cons. split.
      * intros [Hx | Hx]%upsert_keys; [congruence | done].
      * apply IH; [done |]. by apply resolveKey_none.
Qed.

Lemma resolve_of_member ids i :
  NoDup (username <$> ids) → i ∈ ids → resolve (username i) ids = Some i.
Proof.
  unfold resolve. induction ids as [| j ids IH]; simpl.
  - by intros _ ?%not_elem_of_nil.
  - rewrite NoDup_cons. intros [Hfresh Hnodup] Hin.
    case_bool_decide as Hj.
    + apply elem_of_cons in Hin as [-> | Hin]; [done |].
      exfalso. apply Hfresh. rewrite Hj. by apply list_elem_of_fmap_2.
    + apply elem_of_cons in Hin as [-> | Hin]; [done | auto].
Qed.

Lemma others_member u ids i :
  i ∈ ids → username i ≠ u → i ∈ others u ids.
Proof.
  intros Hin Hne. induction ids as [| j ids IH]; [done |]. simpl.
  apply elem_of_cons in Hin as [<- | Hin].
  - rewrite bool_decide_eq_false_2 by done. apply list_elem_of_here.
  - case_bool_decide; [done |]. apply list_elem_of_further. auto.
Qed.

Lemma others_elem u ids i :
  NoDup (username <$> ids) → i ∈ others u ids → i ∈ ids ∧ username i ≠ u.
Proof.
  induction ids as [| j ids IH]; simpl; [by intros _ ?%not_elem_of_nil |].
  rewrite NoDup_cons. intros [Hfresh Hnodup]. case_bool_decide as Hj.
  - intros Hin. split; [by apply list_elem_of_further |].
    intros Hi. apply Hfresh. rewrite Hj, <- Hi. by apply list_elem_of_fmap_2.
  - intros [-> | Hin]%elem_of_cons.
    + split; [apply list_elem_of_here | done].
    + destruct (IH Hnodup Hin). split; [by apply list_elem_of_further | done].
Qed.

Lemma certify_names key serial type now ids :
  username <$> certify key serial type now ids = username <$> ids
  ∧ identityKey <$> certify key serial type now ids = identityKey <$> ids.
Proof.
  induction ids as [| i ids [IHu IHk]]; [done |]. simpl.
  case_bool_decide; rewrite !fmap_cons; simpl; [done |].
  by rewrite IHu, IHk.
Qed.

Lemma resolve_certify key serial type now ids u :
  identityKey <$> resolve u (certify key serial type now ids)
  = identityKey <$> resolve u ids.
Proof.
  unfold resolve. induction ids as [| i ids IH]; [done |]. simpl.
  case_bool_decide; simpl; [by case_bool_decide |].
  by case_bool_decide.
Qed.

Lemma certify_absent key serial type now ids :
  resolveKey key ids = None → certify key serial type now ids = ids.
Proof.
  unfold resolveKey. induction ids as [| i ids IH]; [done |]. simpl.
  case_bool_decide; [done |]. intros Hnone. by rewrite IH.
Qed.

Lemma resolveKey_certify key serial type now ids i :
  resolveKey key ids = Some i →
  resolveKey key (certify key serial type now ids)
  = Some {| username := username i; email := email i;
            identityKey := identityKey i;
            certificateSerialNumber := Some serial;
            certificateType := Some type;
            createdAt := createdAt i; updatedAt := now |}.
Proof.
  unfold resolveKey. induction ids as [| j ids IH]; [done |]. simpl.
  case_bool_decide as Hj; simpl.
  - intros [= ->]. by rewrite bool_decide_eq_true_2.
  - intros Hfind. rewrite bool_decide_eq_false_2 by done. auto.
Qed.

Section IdentityFacts.
Variable keyIndexed : bool.

Lemma store_then_resolve u e k now db identity db' :
  storeGitHubIdentity keyIndexed u e k now db = (Ok identity, db') →
  (∃ stored,
     resolve u (githubIdentities db') = Some stored
     ∧ identityKey stored = k ∧ email stored = Some e
     ∧ createdAt stored = now ∧ updatedAt stored = now
     ∧ certificateSerialNumber stored
       = resolve u (githubIdentities db) ≫= certificateSerialNumber
     ∧ certificateType stored
       = resolve u (githubIdentities db) ≫= certificateType)
  ∧ (∀ u', u' ≠ u →
       resolve u' (githubIdentities db') = resolve u' (githubIdentities db))
  ∧ length (githubIdentities db')
    = match resolve u (githubIdentities db) with
      | Some _ => length (githubIdentities db)
      | None => S (length (githubIdentities db))
      end
  ∧ bounties db' = bounties db.
Proof.
  unfold storeGitHubIdentity.
  destruct (keyIndexed && _); [done |]. intros [= <- <-]. simpl.
  split_and!.
  - match goal with |- context [upsert ?i _] => set (identity := i) end.
    rewrite (resolve_upsert_same identity). change (username identity) with u.
    destruct (resolve u (githubIdentities db)); eexists; by split_and!.
  - intros u' Hne. by apply resolve_upsert_other.
  - match goal with |- context [upsert ?i _] => set (identity := i) end.
    apply (length_upsert identity).
  - done.
Qed.

(** X18. Storing an identity and looking it up: after a successful
    [storeGitHubIdentity] the username resolves to the stored key and
    e-mail, with both timestamps set to the time of the call (also when
    the username was already registered, whose certificate fields are
    kept); every other username resolves as before, the number of
    identities grows by one only for a new username, and the bounty
    collection is untouched. *)
Theorem stored_identity_resolves u e k now db identity db' :
  storeGitHubIdentity keyIndexed u e k now db = (Ok identity, db') →
  (∃ stored,
     resolve u (githubIdentities db') = Some stored
     ∧ identityKey stored = k ∧ email stored = Some e
     ∧ createdAt stored = now ∧ updatedAt stored = now
     ∧ certificateSerialNumber stored
       = resolve u (githubIdentities db) ≫= certificateSerialNumber
     ∧ certificateType stored
       = resolve u (githubIdentities db) ≫= certificateType)
  ∧ (∀ u', u' ≠ u →
       resolve u' (githubIdentities db') = resolve u' (githubIdentities db))
  ∧ length (githubIdentities db')
    = match resolve u (githubIdentities db) with
      | Some _ => length (githubIdentities db)
      | None => S (length (githubIdentities db))
      end
  ∧ bounties db' = bounties db.
Proof. apply store_then_resolve. Qed.

(** X19. With the unique key index in place, unique usernames and unique
    keys are kept by [storeGitHubIdentity], whatever its outcome; lookups
    by username and by key then invert each other; and the call throws,
    leaving the database unchanged, exactly when another username already
    holds the key. *)
Theorem identities_stay_unique u e k now db :
  NoDup (username <$> githubIdentities db) →
  NoDup (identityKey <$> githubIdentities db) →
  let run := storeGitHubIdentity true u e k now db in
  let ids' := githubIdentities run.2 in
  NoDup (username <$> ids') ∧ NoDup (identityKey <$> ids')
  ∧ (∀ u0 i, resolve u0 ids' = Some i →
             resolveKey (identityKey i) ids' = Some i)
  ∧ (∀ k0 i, resolveKey k0 ids' = Some i →
             resolve (username i) ids' = Some i)
  ∧ ((∃ i, i ∈ githubIdentities db ∧ identityKey i = k ∧ username i ≠ u)
     ↔ run = (Throw "E11000 duplicate key error", db)).
Proof.
  intros Hnames Hkeys run ids'.
  assert (Hconflict :
    (∃ i, i ∈ githubIdentities db ∧ identityKey i = k ∧ username i ≠ u)
    ↔ is_Some (resolveKey k (others u (githubIdentities db)))).
  { split.
    - intros (i & Hin & Hk & Hu).
      destruct (resolveKey k (others u (githubIdentities db))) eqn:Hnone;
        [done |].
      exfalso. apply resolveKey_none in Hnone. apply Hnone. rewrite <- Hk.
      by apply list_elem_of_fmap_2, others_member.
    - intros [i Hi]. apply resolveKey_elem in Hi as [Hin Hk].
      apply others_elem in Hin as [Hin Hu]; [| done]. eauto. }
  assert (Hunique : NoDup (username <$> ids') ∧ NoDup (identityKey <$> ids')).
  { subst run ids'. unfold storeGitHubIdentity. simpl.
    case_bool_decide as Hc; simpl; [done |].
    split; [by apply upsert_usernames |].
    apply upsert_keeps_keys_unique; [done |]. simpl.
    destruct (resolveKey k _) eqn:Hr; [| done]. by destruct Hc. }
  destruct Hunique as [Hnames' Hkeys']. split_and!; [done | done | | |].
  - intros u0 i [Hin _]%resolve_elem. by apply resolveKey_of_member.
  - intros k0 i [Hin _]%resolveKey_elem. by apply resolve_of_member.
  - rewrite Hconflict. subst run. unfold storeGitHubIdentity. simpl.
    case_bool_decide as Hc; simpl; [done |]. split; [done | discriminate].
Qed.

End IdentityFacts.

Section CertificateFacts.
Variable keyIndexed : bool.
Variable verify : Certificate → Result bool.
Variable acquireCertificate : string → Result Certificate.

(** X20. [verifyCertificate] never throws.  It answers [true] exactly
    when the certificate verifies, and otherwise (also when verification
    itself throws) answers [false] with the database unchanged.  A valid
    certificate is recorded on the identity holding its subject key
    (serial number, type, update time) without changing what any username
    resolves to; when no identity holds that key the answer is still
    [true] and nothing is stored. *)
Theorem verifyCertificate_records_certificate certificate now db :
  ∃ valid db',
    verifyCertificate verify certificate now db = (Ok valid, db')
    ∧ (valid = true ↔ verify certificate = Ok true)
    ∧ (valid = false → db' = db)
    ∧ bounties db' = bounties db
    ∧ (∀ u, identityKey <$> resolve u (githubIdentities db')
            = identityKey <$> resolve u (githubIdentities db))
    ∧ (valid = true →
       match resolveKey (subject certificate) (githubIdentities db) with
       | Some i =>
           resolveKey (subject certificate) (githubIdentities db')
           = Some {| username := username i; email := email i;
                     identityKey := identityKey i;
                     certificateSerialNumber :=
                       Some (serialNumber certificate);
                     certificateType := Some (certType certificate);
                     createdAt := createdAt i; updatedAt := now |}
       | None => db' = db
       end).
Proof.
  unfold verifyCertificate, tryCatch, bind, call, ret.
  destruct (verify certificate) as [[|] | e] eqn:Hv; simpl.
  - eexists _, _. split_and!; [done | done | done | done | |].
    + intros u. apply resolve_certify.
    + intros _.
      destruct (resolveKey (subject certificate) (githubIdentities db))
        as [i |] eqn:Hr.
      * by apply resolveKey_certify.
      * unfold setIdentities. rewrite certify_absent by done.
        by destruct db.
  - eexists _, _. split_and!; try done; try (split; done).
  - eexists _, _. split_and!; try done; try (split; done).
Qed.

Lemma email_or_empty certificate :
  match githubEmail certificate with
  | Some e => if String.eqb e "" then "" else e
  | None => ""
  end = default "" (githubEmail certificate).
Proof.
  destruct (githubEmail certificate) as [e |]; [| done]. simpl.
  destruct (String.eqb e "") eqn:He; [| done].
  by apply String.eqb_eq in He.
Qed.

(** X21. [acquireGitHubCertificate] either throws [Failed to verify
    GitHub identity] and leaves the database unchanged (the wallet
    refused, or the key belongs to another username), or returns the
    certificate with its username and e-mail (the empty string when the
    certificate has none), after which that username resolves to the
    certificate's subject key. *)
Theorem acquireGitHubCertificate_registers token now db r db' :
  acquireGitHubCertificate keyIndexed acquireCertificate token now db
  = (r, db') →
  (r = Throw "Failed to verify GitHub identity" ∧ db' = db)
  ∨ ∃ certificate stored,
      acquireCertificate token = Ok certificate
      ∧ r = Ok (certificate, githubUsername certificate,
                default "" (githubEmail certificate))
      ∧ resolve (githubUsername certificate) (githubIdentities db')
        = Some stored
      ∧ identityKey stored = subject certificate
      ∧ email stored = Some (default "" (githubEmail certificate))
      ∧ bounties db' = bounties db.
Proof.
  unfold acquireGitHubCertificate, tryCatch, bind, call, throw, ret.
  destruct (acquireCertificate token) as [certificate | e] eqn:Hacq; simpl.
  - rewrite email_or_empty.
    destruct (storeGitHubIdentity _ _ _ _ _ db) as [[identity | e] db1]
      eqn:Hstore; intros [= <- <-].
    + right. exists certificate.
      apply store_then_resolve in Hstore
        as ((stored & Hres & Hk & He & _) & _ & _ & Hb).
      exists stored. by split_and!.
    + left. split; [done |]. unfold storeGitHubIdentity in Hstore.
      destruct (keyIndexed && _); by simplify_eq.
  - intros [= <- <-]. by left.
Qed.

End CertificateFacts.

Section IdentityWitnesses.

Lemma stored_identity_resolves_witness :
  (∃ stored,
     resolve "dave"
       (githubIdentities
          (storeGitHubIdentity true "dave" "dave@example.org" "dkey" 5
             Demo.db0).2) = Some stored
     ∧ identityKey stored = "dkey")
  ∧ length (githubIdentities
              (storeGitHubIdentity true "dave" "dave@example.org" "dkey" 5
                 Demo.db0).2) = 4%nat.
Proof.
  destruct (stored_identity_resolves true "dave" "dave@example.org" "dkey" 5
              Demo.db0 _ _ eq_refl)
    as ((stored & Hres & Hk & _) & _ & Hlen & _).
  split; [by exists stored | exact Hlen].
Defined.

Lemma demo_identities_unique :
  NoDup (username <$> githubIdentities Demo.db0)
  ∧ NoDup (identityKey <$> githubIdentities Demo.db0).
Proof. split; vm_compute; repeat constructor; set_solver. Qed.

Lemma identities_stay_unique_witness :
  storeGitHubIdentity true "dave" "dave@example.org" "owner" 5 Demo.db0
  = (Throw "E11000 duplicate key error", Demo.db0).
Proof.
  destruct demo_identities_unique as [Hnames Hkeys].
  destruct (identities_stay_unique "dave" "dave@example.org" "owner" 5
              Demo.db0 Hnames Hkeys) as (_ & _ & _ & _ & Hthrow).
  apply Hthrow. exists (Demo.identityOf "acme" "owner").
  split_and!; [apply list_elem_of_here | reflexivity | discriminate].
Defined.

Lemma acquireGitHubCertificate_registers_witness :
  ∃ stored,
    resolve "erin"
      (githubIdentities
         (acquireGitHubCertificate true
            (λ _, Ok {| subject := "ekey"; serialNumber := "s1";
                        certType := "github"; githubUsername := "erin";
                        githubEmail := None |})
            "token" 5 Demo.db0).2) = Some stored
    ∧ identityKey stored = "ekey" ∧ email stored = Some "".
Proof.
  destruct (acquireGitHubCertificate_registers true
              (λ _, Ok {| subject := "ekey"; serialNumber := "s1";
                          certType := "github"; githubUsername := "erin";
                          githubEmail := None |})
              "token" 5 Demo.db0 _ _ eq_refl)
    as [[Hthrow _] | (certificate & stored & [= <-] & _ & Hres & Hk & He & _)].
  - discriminate Hthrow.
  - exists stored. auto.
Defined.

End IdentityWitnesses.


End IdentityProofs.

(** * Properties of the listings and the HTTP routes *)

Module RouterProofs.
Import Mongo ServiceQueries Router.

Lemma find_elem q (d : Doc) ds : d ∈ find q ds ↔ d ∈ ds ∧ matches q d = true.
Proof.
  unfold find. rewrite list_elem_of_In, filter_In, <- list_elem_of_In. done.
Qed.

Section ListingFacts.
Variable sortByCreatedAtDesc : list Doc → list Doc.
Hypothesis sort_permutes : ∀ l, sortByCreatedAtDesc l ≡ₚ l.

Lemma sorted_find_elem field value (d : Doc) ds :
  d ∈ sortByCreatedAtDesc (find [(field, VStr value)] ds)
  ↔ d ∈ ds ∧ d !! field = Some (VStr value).
Proof.
  rewrite sort_permutes, find_elem. unfold matches. simpl.
  by rewrite andb_true_r, bool_decide_eq_true.
Qed.

(** X22. The listings of the service only read the store.  With a
    positive limit (20 when none is given), [getActiveBounties] returns
    stored records that are all [active], as many as the limit allows and
    no more; [getBountiesByIssue], [getBountiesByFunder] and
    [getBountiesByRepoOwner] return exactly the stored records whose
    [issueId], [funderIdentityKey] or [repoOwner] is the argument. *)
Theorem listings_return_stored_records db :
  (∀ limit, 0 < default 20 limit →
     ∃ l, getActiveBounties sortByCreatedAtDesc limit db = (Ok l, db)
          ∧ length l
            = Nat.min (Z.to_nat (default 20 limit))
                (length (find [("status", VStr "active")]
                           (docs (bounties db))))
          ∧ ∀ d, d ∈ l →
                 d ∈ docs (bounties db)
                 ∧ d !! "status" = Some (VStr "active"))
  ∧ (∀ issueId,
       ∃ l, getBountiesByIssue sortByCreatedAtDesc issueId db = (Ok l, db)
            ∧ ∀ d, d ∈ l ↔ d ∈ docs (bounties db)
                           ∧ d !! "issueId" = Some (VStr issueId))
  ∧ (∀ key,
       ∃ l, getBountiesByFunder sortByCreatedAtDesc key db = (Ok l, db)
            ∧ ∀ d, d ∈ l ↔ d ∈ docs (bounties db)
                           ∧ d !! "funderIdentityKey" = Some (VStr key))
  ∧ (∀ owner,
       ∃ l, getBountiesByRepoOwner sortByCreatedAtDesc owner db = (Ok l, db)
            ∧ ∀ d, d ∈ l ↔ d ∈ docs (bounties db)
                           ∧ d !! "repoOwner" = Some (VStr owner)).
Proof.
  split_and!.
  - intros limit Hpos. eexists. split; [reflexivity |].
    unfold cursorLimit. rewrite (proj2 (Z.eqb_neq _ 0)) by lia.
    rewrite Z.abs_eq by lia. split.
    + by rewrite length_take, sort_permutes.
    + intros d Hd. apply sorted_find_elem.
      eapply elem_of_sublist; [exact Hd | apply sublist_take].
  - intros issueId. eexists. split; [reflexivity |].
    intros d. apply sorted_find_elem.
  - intros key. eexists. split; [reflexivity |].
    intros d. apply sorted_find_elem.
  - intros owner. eexists. split; [reflexivity |].
    intros d. apply sorted_find_elem.
Qed.

End ListingFacts.

Lemma listings_return_stored_records_witness :
  ∃ l, getActiveBounties id (Some 5) Demo.db1 = (Ok l, Demo.db1)
       ∧ length l = 1%nat.
Proof.
  destruct (listings_return_stored_records id (λ l, reflexivity l) Demo.db1)
    as (Hactive & _).
  destruct (Hactive (Some 5)) as (l & Hrun & Hlen & _); [done |].
  exists l. split; [exact Hrun |]. rewrite Hlen. reflexivity.
Defined.

Lemma dropEmpty_some v s :
  QueryForms.dropEmpty v = Some s → v = Some s ∧ LookupService.truthy v = true.
Proof.
  unfold QueryForms.dropEmpty, LookupService.truthy.
  destruct v as [s' |]; [| done].
  destruct (String.eqb s' "") eqn:Hs; [done |]. by intros [= ->].
Qed.

Lemma dropEmpty_none v :
  QueryForms.dropEmpty v = None → LookupService.truthy v = false.
Proof.
  unfold QueryForms.dropEmpty, LookupService.truthy.
  destruct v as [s' |]; [| done]. by destruct (String.eqb s' "").
Qed.

Section RouteFacts.
Context `{Contract.ScryptLib}.
Variable C : Service.Collaborators.
Variable certifierPublicKey : string.
Variable sortByCreatedAtDesc : list Doc → list Doc.
Variable Number : string → option Z.

(** X23. [GET /bounties] never combines its filters and reads only.
    [status=active] overrides every other parameter; any other status
    value is ignored altogether; after that only the first given of
    [issueId], [repoOwner], [funder] counts; and with none of them the
    active listing is returned.  The answer always has code 200 and the
    database is untouched. *)
Theorem getBounties_uses_one_filter query db :
  let run := getBounties sortByCreatedAtDesc in
  let only status issueId repoOwner funder :=
    {| g_status := status; g_issueId := issueId;
       g_repoOwner := repoOwner; g_funder := funder |} in
  (∃ l, run query db = (Ok {| code := 200; body := Bounties l |}, db))
  ∧ (g_status query = Some "active" →
     run query db = run (only (Some "active") None None None) db)
  ∧ (g_status query ≠ Some "active" →
     run query db
     = run (only None (g_issueId query) (g_repoOwner query)
              (g_funder query)) db
     ∧ (∀ issueId, QueryForms.dropEmpty (g_issueId query) = Some issueId →
          run query db = run (only None (Some issueId) None None) db)
     ∧ (∀ owner, QueryForms.dropEmpty (g_issueId query) = None →
          QueryForms.dropEmpty (g_repoOwner query) = Some owner →
          run query db = run (only None None (Some owner) None) db)
     ∧ (QueryForms.dropEmpty (g_issueId query) = None →
        QueryForms.dropEmpty (g_repoOwner query) = None →
        QueryForms.dropEmpty (g_funder query) = None →
        run query db = run (only (Some "active") None None None) db)).
Proof.
  intros run only. subst run only. unfold getBounties, tryCatch, bind.
  destruct query as [st issue owner funder]. simpl.
  split_and!.
  - case_bool_decide; [eexists; reflexivity |].
    destruct (LookupService.truthy issue); [eexists; reflexivity |].
    destruct (LookupService.truthy owner); [eexists; reflexivity |].
    destruct (LookupService.truthy funder); eexists; reflexivity.
  - intros ->. reflexivity.
  - intros Hst. rewrite (bool_decide_eq_false_2 _ Hst). split_and!.
    + reflexivity.
    + intros issueId [-> Hi]%dropEmpty_some. by rewrite Hi.
    + intros o Hi%dropEmpty_none [-> Ho]%dropEmpty_some.
      by rewrite Hi, Ho.
    + intros Hi%dropEmpty_none Ho%dropEmpty_none Hf%dropEmpty_none.
      by rewrite Hi, Ho, Hf.
Qed.



Lemma truthy_true v :
  LookupService.truthy v = true → ∃ s, v = Some s ∧ s ≠ "".
Proof.
  unfold LookupService.truthy. destruct v as [s |]; [| done].
  rewrite negb_true_iff, String.eqb_neq. eauto.
Qed.

(** Settles the facts about a response that is already computed. *)
Ltac settle :=
  eexists _, _; split; [reflexivity |]; simpl; split_and!;
  try done; try set_solver; try (by intros [? ?]);
  try (intros; reflexivity); try (intros; by left); try (intros; by right);
  try (by intros _ Hbad; exfalso; eauto).


(** X25. [POST .../claim] always answers, with one of the codes 401,
    400, 403, 500 and 200, and changes the database only when it answers
    200.  Without an authenticated user it answers 401, and a caller
    without a registered identity never gets past 400 or 403.  On 200 the
    payout was committed for the authenticated caller as the solver: the
    spend succeeded, and the first record with the given [txid] and
    [outputIndex], which was [active], was then replaced in place by that
    record with [status] set to [completed], [solverIdentityKey] to the
    caller's identity key, [solutionPullRequestId] to the given pull
    request and [completedAt] to the time of the call, every other field
    and every other record staying as it was. *)
Theorem postClaim_answers user txid outputIndex prId now db :
  ∃ response db',
    postClaim C certifierPublicKey Number user txid outputIndex prId now db
    = (Ok response, db')
    ∧ code response ∈ [401; 400; 403; 500; 200]
    ∧ (code response ≠ 200 → db' = db)
    ∧ (user = None → code response = 401)
    ∧ (∀ username, user = Some username →
       resolve username (githubIdentities db) = None →
       code response = 400 ∨ code response = 403)
    ∧ (code response = 200 →
       ∃ username index pr solverIdentity id,
         user = Some username ∧ Number outputIndex = Some index
         ∧ prId = Some pr
         ∧ resolve username (githubIdentities db) = Some solverIdentity
         ∧ body response = SpendId id
         ∧ Service.Committed C txid index
             (Service.payUpdate (identityKey solverIdentity) pr now)
             db db' id
         ∧ ∃ (bounty paid : Doc) before after,
             findOne (Service.txFilter txid index) (docs (bounties db))
             = Some bounty
             ∧ bounty !! "status" = Some (VStr "active")
             ∧ docs (bounties db) = before ++ bounty :: after
             ∧ docs (bounties db') = before ++ paid :: after
             ∧ uniqueIndexes (bounties db') = uniqueIndexes (bounties db)
             ∧ githubIdentities db' = githubIdentities db
             ∧ paid !! "status" = Some (VStr "completed")
             ∧ paid !! "solverIdentityKey"
               = Some (VStr (identityKey solverIdentity))
             ∧ paid !! "solutionPullRequestId" = Some (VStr pr)
             ∧ paid !! "completedAt" = Some (VDate now)
             ∧ ∀ field,
                 field ∉ ["status"; "solverIdentityKey";
                          "solutionPullRequestId"; "completedAt"] →
                 paid !! field = bounty !! field).
Proof.
  unfold postClaim, tryCatch, bind, respond, ret, identitiesFindOne.
  destruct user as [username |]; simpl; [| settle].
  destruct (negb (LookupService.truthy (Some txid)) || _ || _) eqn:Hmissing;
    simpl; [settle |].
  destruct (resolve username (githubIdentities db)) as [identity |] eqn:Hid;
    simpl; [| settle].
  apply orb_false_iff in Hmissing as [_ Hpr].
  apply negb_false_iff, truthy_true in Hpr as (pr & -> & _). simpl.
  unfold atIndex.
  destruct (Number outputIndex) as [index |]; simpl; [| settle].
  destruct (Service.payBounty _ _ _ _ _ _ _ db) as [r db1] eqn:Hrun.
  apply ServiceProofs.payBounty_outcome in Hrun
    as [[-> ->] | (b & si & inst & mc & id & -> & Hb & Hactive & Hsi & _
                   & Hspent & ->)]; simpl; [settle |].
  settle. intros _. exists username, index, pr, si, id.
  split_and!; try done; [by exists b, inst, mc |].
  destruct (IndexProofs.updateOne_first _
              (Service.payUpdate (identityKey si) pr now) _ _ Hb)
    as (before & after & Hdocs & _ & Hupdated).
  exists b, (Service.payUpdate (identityKey si) pr now ∪ b), before, after.
  simpl. split_and!; try done; try (by apply lookup_union_Some_l).
  intros field Hfield. apply lookup_union_r. unfold Service.payUpdate.
  rewrite !lookup_insert_ne; [done | intros <-; apply Hfield; set_solver ..].
Qed.

(** X26. [POST .../refund] and [POST .../cancel] answer 401 exactly when
    no user is authenticated, otherwise 200 or 500, and change the
    database only with 200, after the refund (resp. cancellation) was
    committed.  Neither route looks at who the authenticated caller is:
    any two callers get the same answer and effect. *)
Theorem postRefund_and_postCancel_answer user txid outputIndex now db :
  (∃ response db',
     postRefund C certifierPublicKey Number user txid outputIndex now db
     = (Ok response, db')
     ∧ code response ∈ [401; 500; 200]
     ∧ (user = None ↔ code response = 401)
     ∧ (code response ≠ 200 → db' = db)
     ∧ (code response = 200 →
        ∃ index id,
          Number outputIndex = Some index ∧ body response = SpendId id
          ∧ Service.Committed C txid index (Service.refundUpdate now)
              db db' id))
  ∧ (∃ response db',
       postCancel C certifierPublicKey Number user txid outputIndex now db
       = (Ok response, db')
       ∧ code response ∈ [401; 500; 200]
       ∧ (user = None ↔ code response = 401)
       ∧ (code response ≠ 200 → db' = db)
       ∧ (code response = 200 →
          ∃ index id,
            Number outputIndex = Some index ∧ body response = SpendId id
            ∧ Service.Committed C txid index (Service.cancelUpdate now)
                db db' id))
  ∧ (∀ caller1 caller2,
       postRefund C certifierPublicKey Number (Some caller1) txid outputIndex
         now db
       = postRefund C certifierPublicKey Number (Some caller2) txid
           outputIndex now db
       ∧ postCancel C certifierPublicKey Number (Some caller1) txid
           outputIndex now db
         = postCancel C certifierPublicKey Number (Some caller2) txid
             outputIndex now db).
Proof.
  split_and!; [| | done].
  - unfold postRefund, tryCatch, bind, respond, ret, atIndex.
    destruct user as [username |]; simpl; [| settle; by split].
    destruct (Number outputIndex) as [index |]; simpl;
      [| settle; by split].
    destruct (Service.refundExpiredBounty _ _ _ _ _ db) as [r db1] eqn:Hrun.
    apply ServiceProofs.refundExpiredBounty_outcome in Hrun
      as [[-> ->] | (b & inst & mc & id & -> & Hb & _ & _ & Hspent & ->)];
      simpl; [settle; by split |].
    settle. intros _. exists index, id.
    split_and!; try done. by exists b, inst, mc.
  - unfold postCancel, tryCatch, bind, respond, ret, atIndex.
    destruct user as [username |]; simpl; [| settle; by split].
    destruct (Number outputIndex) as [index |]; simpl;
      [| settle; by split].
    destruct (Service.cancelBounty _ _ _ _ _ db) as [r db1] eqn:Hrun.
    apply ServiceProofs.cancelBounty_outcome in Hrun
      as [[-> ->] | (b & inst & mc & id & -> & Hb & _ & _ & Hspent & ->)];
      simpl; [settle; by split |].
    settle. intros _. exists index, id.
    split_and!; try done. by exists b, inst, mc.
Qed.

End RouteFacts.

Section RouteRuns.
#[local] Existing Instance Demo.lib.

Example demo_postBounty_created :
  postBounty Demo.collaborators "certifier" (Some "carol")
    {| c_issueId := Some "acme/widget#42"; c_repoOwner := Some "acme";
       c_amount := Some 50000; c_deadlineDays := None |}
    1697408000000 1697408000250 Demo.db0
  = (Ok {| code := 201; body := CreatedRef "deploy-tx" 0 |}, Demo.db1).
Proof. by vm_compute. Qed.

Example demo_postBounty_unregistered_owner :
  postBounty Demo.collaborators "certifier" (Some "carol")
    {| c_issueId := Some "acme/widget#42"; c_repoOwner := Some "nobody";
       c_amount := Some 50000; c_deadlineDays := None |}
    1697408000000 1697408000250 Demo.db0
  = (Ok {| code := 500;
           body := Failure "Failed to create bounty"
                     (Some "Failed to create bounty") |}, Demo.db0).
Proof. by vm_compute. Qed.

Example demo_postRefund_by_a_stranger :
  ∃ db',
    postRefund Demo.collaborators "certifier" (λ _, Some 0)
      (Some "mallory") "t9" "0" 1700000001000 Demo.db9
    = (Ok {| code := 200; body := SpendId "spend-tx" |}, db').
Proof. by eexists; vm_compute. Qed.

Example demo_postClaim_paid :
  ∃ db',
    postClaim Demo.collaborators "certifier" (λ _, Some 0)
      (Some "bob") "t9" "0" (Some "pr-7") 1697500000000 Demo.db9
    = (Ok {| code := 200; body := SpendId "spend-tx" |}, db').
Proof. by eexists; vm_compute. Qed.

End RouteRuns.

End RouterProofs.
